(** * ts_helpers: the CSV bulk loader and the project statistics helper

    A shallow embedding of [src/import_csv_to_sql.py] ([csv_to_table], [main])
    and of [get_project_stats] from [src/ts_predictions.py], with the
    properties of the loader's drop / create / copy sequence, of its single
    retry, of its resource handling, and of the metric defaulting in the
    statistics loop. *)

From Stdlib Require Import String Ascii List Bool Arith Lia.
From stdpp Require Import base option list strings gmap pretty.
Import ListNotations.

Local Open Scope string_scope.
Local Open Scope list_scope.
Local Open Scope nat_scope.

(** ** Python exceptions and the state-and-exception monad *)

Module Py.

(** Errors of the database driver other than a data error.  SQLAlchemy wraps
    them as [OperationalError], [ProgrammingError] and [InternalError]. *)
Inductive DbFault := OperationalError | ProgrammingError | InternalError.

(** The exception classes the two scripts can meet. [DataError] is
    [sqlalchemy.exc.DataError], the one class [csv_to_table] catches;
    [FileNotFoundError] the one class [main] catches. [StatementError] is
    [sqlalchemy.exc.StatementError], which SQLAlchemy raises for a string
    statement sent on a closed connection: it wraps the
    [ResourceClosedError] of the connection and is no instance of it. *)
Inductive Exn :=
  | FileNotFoundError
  | StopIteration
  | IndexError
  | KeyError
  | UnboundLocalError
  | DataError
  | DBAPIError (f : DbFault)
  | StatementError
  | PandasError.

#[global] Instance DbFault_eq_dec : EqDecision DbFault.
Proof. solve_decision. Defined.

#[global] Instance Exn_eq_dec : EqDecision Exn.
Proof. solve_decision. Defined.

(** What a Python function hands back: the scripts only ever produce [None]
    or an integer. *)
Inductive PyValue := PyNone | PyInt (n : nat).

#[global] Instance PyValue_eq_dec : EqDecision PyValue.
Proof. solve_decision. Defined.

Section Monad.
Context {W : Type}.

(** A computation over a world [W] that returns or raises. *)
Definition M (A : Type) : Type := W -> (Exn + A) * W.

Definition ret {A} (a : A) : M A := fun w => (inr a, w).

Definition raise {A} (e : Exn) : M A := fun w => (inl e, w).

Definition bind {A B} (m : M A) (k : A -> M B) : M B :=
  fun w =>
    match m w with
    | (inl e, w') => (inl e, w')
    | (inr a, w') => k a w'
    end.

(** [try: body  except cls: handler], for the exception class [cls]. *)
Definition try_except {A} (body : M A) (cls : Exn) (handler : M A) : M A :=
  fun w =>
    match body w with
    | (inl e, w') => if decide (e = cls) then handler w' else (inl e, w')
    | (inr a, w') => (inr a, w')
    end.

(** [try: body  finally: cleanup]: the cleanup always runs; an exception
    raised by the cleanup replaces the outcome of the body. *)
Definition try_finally {A} (body : M A) (cleanup : M unit) : M A :=
  fun w =>
    match body w with
    | (r, w') =>
        match cleanup w' with
        | (inl e, w'') => (inl e, w'')
        | (inr _, w'') => (r, w'')
        end
    end.
End Monad.

Arguments M : clear implicits.

(** [l[i]] on a Python list. *)
Definition index {W A} (l : list A) (i : nat) : M W A :=
  match l !! i with
  | Some x => ret x
  | None => raise IndexError
  end.

(** [s.split(sep)] for a separator that is not empty: the pieces between the
    occurrences of [sep], found from the left and never overlapping. [skip]
    counts the characters of a separator still to pass over, [cur] is the
    piece being read. *)
Fixpoint split_go (sep : string) (skip : nat) (cur : string) (s : string) : list string :=
  match s with
  | EmptyString => [cur]
  | String c s' =>
      match skip with
      | S k => split_go sep k cur s'
      | O =>
          if String.prefix sep s
          then cur :: split_go sep (String.length sep - 1) "" s'
          else split_go sep 0 (cur +:+ String c "") s'
      end
  end.

Definition py_split (s sep : string) : list string := split_go sep 0 "" s.

Declare Scope py_scope.
Delimit Scope py_scope with py.
Notation "x <- m ;; k" := (bind m (fun x => k))
  (at level 20, m at level 99, k at level 200, only parsing) : py_scope.
Notation "m ;; k" := (bind m (fun _ => k))
  (at level 100, k at level 200, right associativity, only parsing) : py_scope.

End Py.

(** ** The bulk loader, [src/import_csv_to_sql.py] *)

Module Loader.
Import Py.
Local Open Scope py_scope.

(** A file on disk, seen as the records [csv.reader] yields from it: the
    first record is the header, a blank line is the empty record. *)
Abbreviation File := (list (list string)).

(** A column declaration as [CREATE TABLE] receives it: name and type name. *)
Abbreviation Column := (string * string)%type.

Record Table := mkTable {
  columns : list Column;
  rows : list (list string)
}.

(** The statements [csv_to_table] sends. A table is named by the text
    [{schema}.{tablename}] the f-strings build. *)
Inductive Stmt :=
  | DropTableIfExists (q : string)
  | CreateTable (q : string) (datatypes : list Column)
  | CopyFrom (q : string) (path : string)
  | Commit
  | SelectCount (q : string).

Inductive ConnState := ConnOpen | ConnClosed.

(** What the process does to the outside, in order. A statement is logged
    with the exception it raised, if any. *)
Inductive Event :=
  | EvConnect (r : option Exn)
  | EvExecute (s : Stmt) (r : option Exn)
  | EvOpen (path : string)
  | EvRewrite (src dst : string)
  | EvClose (conn : nat)
  | EvDispose (engine : nat).

#[global] Instance Stmt_eq_dec : EqDecision Stmt.
Proof. solve_decision. Defined.

#[global] Instance Event_eq_dec : EqDecision Event.
Proof. solve_decision. Defined.

(** The world the script runs in. Connections and engines are handles into
    [conns] and [engines]; [clock] counts the calls that reached the server. *)
Record World := mkWorld {
  fs : gmap string File;
  db : gmap string Table;
  conns : list ConnState;
  engines : list bool;
  stdout : list string;
  trace : list Event;
  clock : nat
}.

(** The parts of the environment the source does not decide:
    - [fault_at n]: the failure, if any, of the [n]-th call to the server for
      a reason that is not the data (lost connection, missing privilege, ...);
    - [copy_accepts cols f]: whether [COPY ... CSV HEADER] takes the file [f]
      into a table with columns [cols], or rejects it with a data error;
    - [read_csv_to_csv f]: the file that
      [pd.read_csv(f, dtype=str, engine='python').to_csv(_, index=False)]
      writes, or [None] when pandas raises;
    - [reserved name]: whether the server keeps the word [name] for itself,
      so that it cannot name a column unless quoted (a key word such as
      [select], the name of a system column);
    - [odd_columns datatypes]: what [CREATE TABLE] makes of the column
      declarations when one of the names pasted into the statement is not a
      plain identifier: [None] when the server refuses the statement (a
      syntax error, as a rule), the columns it reads off the text
      otherwise. *)
Record Env := mkEnv {
  fault_at : nat -> option DbFault;
  copy_accepts : list Column -> File -> bool;
  read_csv_to_csv : File -> option File;
  reserved : string -> bool;
  odd_columns : list Column -> option (list Column)
}.

Definition set_fs (x : gmap string File) (w : World) : World :=
  mkWorld x (db w) (conns w) (engines w) (stdout w) (trace w) (clock w).
Definition set_db (x : gmap string Table) (w : World) : World :=
  mkWorld (fs w) x (conns w) (engines w) (stdout w) (trace w) (clock w).
Definition set_conns (x : list ConnState) (w : World) : World :=
  mkWorld (fs w) (db w) x (engines w) (stdout w) (trace w) (clock w).
Definition set_engines (x : list bool) (w : World) : World :=
  mkWorld (fs w) (db w) (conns w) x (stdout w) (trace w) (clock w).
Definition log (ev : Event) (w : World) : World :=
  mkWorld (fs w) (db w) (conns w) (engines w) (stdout w) (trace w ++ [ev]) (clock w).
Definition tick (w : World) : World :=
  mkWorld (fs w) (db w) (conns w) (engines w) (stdout w) (trace w) (S (clock w)).

Local Abbreviation M := (Py.M World).

(** [print(s)] *)
Definition print (s : string) : M unit :=
  fun w => (inr tt,
            mkWorld (fs w) (db w) (conns w) (engines w) (stdout w ++ [s]) (trace w) (clock w)).

Definition nl : string := String "010"%char EmptyString.
Definition tab : string := String "009"%char EmptyString.

(** [f"{schema}.{tablename}"] *)
Definition qualified (schema tablename : string) : string :=
  schema +:+ "." +:+ tablename.

(** The text of a statement as the f-strings of [csv_to_table] build it,
    up to the line breaks and indentation inside the triple-quoted strings:
    the column declarations are joined by a comma and a line break. *)
Definition sql_text (s : Stmt) : string :=
  match s with
  | DropTableIfExists q => "DROP TABLE IF EXISTS " +:+ q +:+ " ;"
  | CreateTable q datatypes =>
      "CREATE TABLE " +:+ q +:+ " ( "
      +:+ String.concat ("," +:+ nl) (map (fun c : Column => fst c +:+ " " +:+ snd c) datatypes)
      +:+ " );"
  | CopyFrom q path => "COPY " +:+ q +:+ " FROM '" +:+ path +:+ "' CSV DELIMITER ',' HEADER ;"
  | Commit => "commit"
  | SelectCount q => "SELECT count(" +:+ String "042"%char ") FROM " +:+ q +:+ ";"
  end.

(** [[f"{col} text" for col in header]]: one declaration per header entry,
    in header order, each of type text. *)
Definition text_columns (header : list string) : list Column :=
  map (fun col => (col, "text")) header.

(** *** Names as the server reads them

    The f-strings paste the names into the statement as they are, without
    quotes. PostgreSQL reads an unquoted name as an identifier when it
    begins with a letter or an underscore and goes on with letters, digits,
    underscores and dollar signs (a byte above 127 counts as a letter); it
    folds the letters A to Z to lower case and keeps the first 63 bytes. *)

Definition is_upper (c : ascii) : bool :=
  (65 <=? nat_of_ascii c) && (nat_of_ascii c <=? 90).

Definition is_lower (c : ascii) : bool :=
  (97 <=? nat_of_ascii c) && (nat_of_ascii c <=? 122).

Definition is_digit (c : ascii) : bool :=
  (48 <=? nat_of_ascii c) && (nat_of_ascii c <=? 57).

Definition lower_ascii (c : ascii) : ascii :=
  if is_upper c then ascii_of_nat (nat_of_ascii c + 32) else c.

Fixpoint lower_name (s : string) : string :=
  match s with
  | EmptyString => EmptyString
  | String a s' => String (lower_ascii a) (lower_name s')
  end.

(** The name the server makes of an unquoted identifier. *)
Definition fold_name (s : string) : string :=
  String.substring 0 63 (lower_name s).

Definition name_start (c : ascii) : bool :=
  is_lower c || is_upper c || Ascii.eqb c "_" || (128 <=? nat_of_ascii c).

Fixpoint name_rest (s : string) : bool :=
  match s with
  | EmptyString => true
  | String a s' => (name_start a || is_digit a || Ascii.eqb a "$") && name_rest s'
  end.

Definition plain_identifier (s : string) : bool :=
  match s with
  | EmptyString => false
  | String a s' => name_start a && name_rest s'
  end.

(** A name that is already what the server makes of it. *)
Definition is_folded (s : string) : bool := bool_decide (fold_name s = s).

(** A declaration [{col} text] the server reads as a column named by one
    identifier. *)
Definition plain_column (E : Env) (c : Column) : bool :=
  plain_identifier (fst c) && negb (reserved E (fold_name (fst c))).

(** The columns [CREATE TABLE] makes of the declarations. When every name is
    a plain identifier the server does not reserve, each column is named by
    the folded name; the statement is refused when two of the folded names
    are the same, or when there are more than 1600 columns. Otherwise the
    text is not read here, and [odd_columns] decides. *)
Definition read_columns (E : Env) (datatypes : list Column) : option (list Column) :=
  if forallb (plain_column E) datatypes
  then
    if bool_decide (NoDup (map (fun c : Column => fold_name (fst c)) datatypes))
       && (length datatypes <=? 1600)
    then Some (map (fun c : Column => (fold_name (fst c), snd c)) datatypes)
    else None
  else odd_columns E datatypes.

(** The columns of the table made for a header of plain names. *)
Definition server_columns (header : list string) : list Column :=
  map (fun col => (fold_name col, "text")) header.

(** A header the server reads name by name. *)
Definition plain_header (E : Env) (header : list string) : bool :=
  forallb (fun col => plain_identifier col && negb (reserved E (fold_name col))) header.

Section Model.
Variable E : Env.

(** The effect of a statement on the database once the server runs it, as
    this connection sees it. The server is local and reads the path of a
    [COPY] from the same file system; [COPY ... CSV HEADER] skips the first
    record and appends the others; a statement that raises changes nothing.
    [DROP] and [CREATE] take effect at once (the driver layer commits them
    itself); [commit] makes the copied rows durable and changes nothing the
    connection sees. [CREATE TABLE] makes the columns [read_columns] reads
    off the declarations. A table is identified by the text
    [{schema}.{tablename}] of the statements. *)
Definition run_stmt (s : Stmt) (w : World) : Exn + (list (list nat) * World) :=
  match s with
  | DropTableIfExists q => inr ([], set_db (delete q (db w)) w)
  | CreateTable q datatypes =>
      match db w !! q with
      | Some _ => inl (DBAPIError ProgrammingError)
      | None =>
          match read_columns E datatypes with
          | Some cols => inr ([], set_db (<[q := mkTable cols []]> (db w)) w)
          | None => inl (DBAPIError ProgrammingError)
          end
      end
  | CopyFrom q path =>
      match db w !! q with
      | None => inl (DBAPIError ProgrammingError)
      | Some t =>
          match fs w !! path with
          | None => inl (DBAPIError OperationalError)
          | Some f =>
              if copy_accepts E (columns t) f
              then inr ([], set_db (<[q := mkTable (columns t) (rows t ++ tail f)]> (db w)) w)
              else inl DataError
          end
      end
  | Commit => inr ([], w)
  | SelectCount q =>
      match db w !! q with
      | None => inl (DBAPIError ProgrammingError)
      | Some t => inr ([[length (rows t)]], w)
      end
  end.

(** [conn.execute(stmt)] for a string statement: refused with
    [StatementError] on a closed connection, before anything is sent;
    otherwise the call reaches the server, where it fails by [fault_at] or
    runs. *)
Definition conn_execute (conn : nat) (s : Stmt) : M (list (list nat)) :=
  fun w =>
    match conns w !! conn with
    | Some ConnOpen =>
        match fault_at E (clock w) with
        | Some f => (inl (DBAPIError f), log (EvExecute s (Some (DBAPIError f))) (tick w))
        | None =>
            match run_stmt s w with
            | inl e => (inl e, log (EvExecute s (Some e)) (tick w))
            | inr (res, w') => (inr res, log (EvExecute s None) (tick w'))
            end
        end
    | _ => (inl StatementError, w)
    end.

(** [conn.close()]: closing twice is allowed. *)
Definition conn_close (conn : nat) : M unit :=
  fun w => (inr tt, log (EvClose conn) (set_conns (<[conn := ConnClosed]> (conns w)) w)).

(** [create_engine(url)]: lazy, no call to the server. *)
Definition create_engine : M nat :=
  fun w => (inr (length (engines w)), set_engines (engines w ++ [false]) w).

(** [engine.connect()] *)
Definition engine_connect (engine : nat) : M nat :=
  fun w =>
    match fault_at E (clock w) with
    | Some f => (inl (DBAPIError f), log (EvConnect (Some (DBAPIError f))) (tick w))
    | None => (inr (length (conns w)),
               log (EvConnect None) (tick (set_conns (conns w ++ [ConnOpen]) w)))
    end.

(** [engine.dispose()] *)
Definition engine_dispose (engine : nat) : M unit :=
  fun w => (inr tt, log (EvDispose engine) (set_engines (<[engine := true]> (engines w)) w)).

(** [with open(file_name, 'r') as f: header = next(csv.reader(f))] *)
Definition read_header (file_name : string) : M (list string) :=
  fun w =>
    match fs w !! file_name with
    | None => (inl FileNotFoundError, w)
    | Some f =>
        match f with
        | [] => (inl StopIteration, log (EvOpen file_name) w)
        | header :: _ => (inr header, log (EvOpen file_name) w)
        end
    end.

(** [pd.read_csv(src, dtype=str, engine='python').to_csv(dst, index=False)] *)
Definition pd_read_csv_to_csv (src dst : string) : M unit :=
  fun w =>
    match fs w !! src with
    | None => (inl FileNotFoundError, w)
    | Some f =>
        match read_csv_to_csv E f with
        | None => (inl PandasError, log (EvRewrite src dst) w)
        | Some f' => (inr tt, log (EvRewrite src dst) (set_fs (<[dst := f']> (fs w)) w))
        end
    end.

(** [list(result)[0][0]] *)
Definition first_cell (res : list (list nat)) : M nat :=
  match res with
  | (n :: _) :: _ => ret n
  | _ => raise IndexError
  end.

(** [csv_to_table(tablename, schema, file_name, conn, recursed=False)],
    lines 53-95. The function has no [return] statement: it hands back
    [None]. *)
Definition csv_to_table (tablename schema file_name : string) (conn : nat)
    (recursed : bool) : M PyValue :=
  let q := qualified schema tablename in
  (* Delete prior table *)
  conn_execute conn (DropTableIfExists q) ;;
  (* create the table *)
  header <- read_header file_name ;;
  let datatypes := text_columns header in
  conn_execute conn (CreateTable q datatypes) ;;
  (* Load data into the table *)
  try_except
    (conn_execute conn (CopyFrom q file_name) ;;
     conn_execute conn Commit)
    DataError
    (let new_filename := file_name +:+ "_tmp" in
     pd_read_csv_to_csv file_name new_filename ;;
     conn_execute conn (CopyFrom q new_filename) ;;
     conn_execute conn Commit) ;;
  res <- conn_execute conn (SelectCount q) ;;
  num_rows <- first_cell res ;;
  print (tab +:+ pretty num_rows +:+ " rows loaded.") ;;
  conn_close conn ;;
  ret PyNone.

(** What [get_args()] returns. *)
Record Args := mkArgs {
  file_name : string;
  tablename : string;
  database : string;
  schema : string;
  postgres_password : string
}.

Definition hint : string :=
  "*******" +:+ nl
  +:+ "You may want to try giving the full filepath to the file, instead of the relative path."
  +:+ nl +:+ "*******".

(** The [try] block of [main], lines 18-19, together with the binding of
    the local variable [conn] it leaves behind. *)
Definition main_try (engine : nat) (a : Args) (w : World)
    : (Exn + unit) * option nat * World :=
  match engine_connect engine w with
  | (inl e, w1) => (inl e, None, w1)
  | (inr conn, w1) =>
      match csv_to_table (tablename a) (schema a) (file_name a) conn false w1 with
      | (inl e, w2) => (inl e, Some conn, w2)
      | (inr _, w2) => (inr tt, Some conn, w2)
      end
  end.

(** The [finally] block of [main], lines 23-24: reading the local [conn]
    raises [UnboundLocalError] when the [try] block never bound it. *)
Definition main_finally (engine : nat) (conn_var : option nat) : M unit :=
  match conn_var with
  | None => raise UnboundLocalError
  | Some conn => conn_close conn ;; engine_dispose engine
  end.

(** [main()], lines 7-26, on the arguments [get_args()] returned. *)
Definition main (a : Args) : M unit :=
  engine <- create_engine ;;
  print (nl +:+ "Loading " +:+ file_name a +:+ " into " +:+ database a +:+ "."
         +:+ schema a +:+ "." +:+ tablename a) ;;
  (fun w =>
     let '(r, conn_var, w1) := main_try engine a w in
     try_finally
       (try_except (fun w' => (r, w')) FileNotFoundError (print hint))
       (main_finally engine conn_var) w1) ;;
  print (nl +:+ "Done!").

End Model.

(** *** Vocabulary of the properties *)

(** The events a run added to the trace. *)
Definition new_events (w w' : World) : list Event :=
  drop (length (trace w)) (trace w').

(** The lines a run printed. *)
Definition new_output (w w' : World) : list string :=
  drop (length (stdout w)) (stdout w').

(** How many times the statement [s] was sent, whatever came of it. *)
Fixpoint count_exec (s : Stmt) (evs : list Event) : nat :=
  match evs with
  | [] => 0
  | EvExecute s' _ :: rest => (if decide (s' = s) then 1 else 0) + count_exec s rest
  | _ :: rest => count_exec s rest
  end.

(** The file whose records a load that succeeds leaves in the table: the
    source [src] when the first [COPY] takes it, and the copy pandas wrote
    when the first [COPY] raised a data error and the second one took the
    copy. *)
Definition copied_file (E : Env) (src : File) : option File :=
  match src with
  | [] => None
  | header :: _ =>
      match read_columns E (text_columns header) with
      | None => None
      | Some cols =>
          if copy_accepts E cols src then Some src
          else match read_csv_to_csv E src with
               | Some rewritten =>
                   if copy_accepts E cols rewritten then Some rewritten else None
               | None => None
               end
      end
  end.

(** The table such a load leaves behind. *)
Definition loaded_table (E : Env) (src : File) : option Table :=
  match src with
  | [] => None
  | header :: _ =>
      match read_columns E (text_columns header), copied_file E src with
      | Some cols, Some f => Some (mkTable cols (tail f))
      | _, _ => None
      end
  end.

(** The first and the last line [main] prints. *)
Definition loading_line (a : Args) : string :=
  nl +:+ "Loading " +:+ file_name a +:+ " into " +:+ database a +:+ "."
  +:+ schema a +:+ "." +:+ tablename a.

Definition done_line : string := nl +:+ "Done!".

(** What comes of a [COPY] of the file [f] into a table with columns
    [cols], sent as call number [n] to the server: a fault of the server, a
    data error when the server rejects the file, or nothing. *)
Definition copy_outcome (E : Env) (n : nat) (cols : list Column) (f : File) : option Exn :=
  match fault_at E n with
  | Some flt => Some (DBAPIError flt)
  | None => if copy_accepts E cols f then None else Some DataError
  end.

(** What comes of a statement that can only fail by a fault of the server,
    sent as call number [n]. *)
Definition fault_outcome (E : Env) (n : nat) : option Exn :=
  DBAPIError <$> fault_at E n.

(** The line [csv_to_table] prints for a count of [n] rows. *)
Definition rows_loaded_line (n : nat) : string :=
  tab +:+ pretty n +:+ " rows loaded.".

(** *** Concrete environments and worlds *)

(** A server that takes a file when every record after the header has as
    many fields as the table has columns, and reports a data error (bad COPY
    file format) otherwise. *)
Definition strict_copy (cols : list Column) (f : File) : bool :=
  forallb (fun r => length r =? length cols) (tail f).

(** [pd.read_csv] with its default [skip_blank_lines=True]: the blank lines
    after the header are gone from the file written back. *)
Definition skip_blank (f : File) : option File :=
  match f with
  | [] => None
  | header :: data => Some (header :: filter (fun r => r <> []) data)
  end.

(** Words PostgreSQL does not take as a column name unless quoted: its
    reserved key words, those it keeps for types and functions, and the
    names of the system columns. *)
Definition pg_reserved : list string :=
  ["all"; "analyse"; "analyze"; "and"; "any"; "array"; "as"; "asc"; "asymmetric";
   "authorization"; "binary"; "both"; "case"; "cast"; "check"; "collate"; "collation";
   "column"; "concurrently"; "constraint"; "create"; "cross"; "current_catalog";
   "current_date"; "current_role"; "current_schema"; "current_time";
   "current_timestamp"; "current_user"; "default"; "deferrable"; "desc"; "distinct";
   "do"; "else"; "end"; "except"; "false"; "fetch"; "for"; "foreign"; "freeze"; "from";
   "full"; "grant"; "group"; "having"; "ilike"; "in"; "initially"; "inner"; "intersect";
   "into"; "is"; "isnull"; "join"; "lateral"; "leading"; "left"; "like"; "limit";
   "localtime"; "localtimestamp"; "natural"; "not"; "notnull"; "null"; "offset"; "on";
   "only"; "or"; "order"; "outer"; "overlaps"; "placing"; "primary"; "references";
   "returning"; "right"; "select"; "session_user"; "similar"; "some"; "symmetric";
   "table"; "tablesample"; "then"; "to"; "trailing"; "true"; "union"; "unique"; "user";
   "using"; "variadic"; "verbose"; "when"; "where"; "window"; "with";
   "tableoid"; "xmin"; "cmin"; "xmax"; "cmax"; "ctid"].

Definition is_reserved (name : string) : bool :=
  existsb (String.eqb name) pg_reserved.

(** No fault of the server at any call; a statement whose column names are
    not plain identifiers is refused. *)
Definition quiet : Env :=
  mkEnv (fun _ => None) strict_copy skip_blank is_reserved (fun _ => None).

(** The server cannot be reached: the first call, [engine.connect()], fails. *)
Definition unreachable : Env :=
  mkEnv (fun n => if n =? 0 then Some OperationalError else None) strict_copy skip_blank
        is_reserved (fun _ => None).

Definition empty_world : World := mkWorld ∅ ∅ [] [] [] [] 0.

(** [sales.csv] with header [date,region,amount] and three rows; the table
    [public.sales] holds one row of an earlier load. *)
Definition sales_csv : File :=
  [["date"; "region"; "amount"];
   ["2020-01-01"; "north"; "10"];
   ["2020-01-02"; "south"; "20"];
   ["2020-01-03"; "east"; "30"]].

Definition stale_sales : Table :=
  mkTable [("date", "text"); ("region", "text"); ("amount", "text")]
          [["2019-12-31"; "west"; "5"]].

Definition sales_world : World :=
  mkWorld {[ "sales.csv" := sales_csv ]} {[ "public.sales" := stale_sales ]} [] [] [] [] 0.

Definition sales_args : Args := mkArgs "sales.csv" "sales" "warehouse" "public" "secret".

(** The same, with the connection already open, for a direct call of
    [csv_to_table] on connection 0. *)
Definition sales_world_connected : World :=
  mkWorld {[ "sales.csv" := sales_csv ]} {[ "public.sales" := stale_sales ]}
          [ConnOpen] [false] [] [] 0.

(** The path [/no/such/file.csv] does not exist; [public.sales] does. *)
Definition missing_args : Args :=
  mkArgs "/no/such/file.csv" "sales" "warehouse" "public" "secret".

Definition missing_world : World :=
  mkWorld ∅ {[ "public.sales" := stale_sales ]} [] [] [] [] 0.

(** A second file, loaded into the same table [public.sales]. *)
Definition returns_csv : File :=
  [["id"; "reason"]; ["7"; "damaged"]; ["8"; "late"]].

Definition two_files_world : World :=
  mkWorld {[ "sales.csv" := sales_csv; "returns.csv" := returns_csv ]} ∅ [] [] [] [] 0.

Definition returns_args : Args := mkArgs "returns.csv" "sales" "warehouse" "public" "secret".

(** A file with a blank line between two records of two fields. *)
Definition gappy_csv : File := [["a"; "b"]; ["1"; "2"]; []; ["3"; "4"]].

Definition gappy_world : World :=
  mkWorld {[ "x.csv" := gappy_csv ]} ∅ [ConnOpen] [false] [] [] 0.

(** A file whose first line is blank: [csv.reader] yields the empty record
    for it, a header of zero columns. *)
Definition blank_header_csv : File := [[]].

Definition blank_header_world : World :=
  mkWorld {[ "blank.csv" := blank_header_csv ]} ∅ [ConnOpen] [false] [] [] 0.

(** A file whose header is written with capitals. *)
Definition capitals_csv : File := [["Date"; "Amount"]; ["2020-01-01"; "10"]].

Definition capitals_world : World :=
  mkWorld {[ "c.csv" := capitals_csv ]} ∅ [ConnOpen] [false] [] [] 0.

(** A file whose header has the same name twice, up to the case. *)
Definition twice_csv : File := [["id"; "ID"]; ["1"; "2"]].

Definition twice_world : World :=
  mkWorld {[ "d.csv" := twice_csv ]} ∅ [ConnOpen] [false] [] [] 0.

(** The runs of [csv_to_table] on these worlds, on connection 0. *)
Definition sales_run : (Exn + PyValue) * World :=
  csv_to_table quiet "sales" "public" "sales.csv" 0 false sales_world_connected.

Definition gappy_run : (Exn + PyValue) * World :=
  csv_to_table quiet "x" "s" "x.csv" 0 false gappy_world.

Definition blank_header_run : (Exn + PyValue) * World :=
  csv_to_table quiet "t" "s" "blank.csv" 0 false blank_header_world.

Definition capitals_run : (Exn + PyValue) * World :=
  csv_to_table quiet "c" "s" "c.csv" 0 false capitals_world.

Definition twice_run : (Exn + PyValue) * World :=
  csv_to_table quiet "d" "s" "d.csv" 0 false twice_world.

End Loader.

(** ** The project statistics helper, [src/ts_predictions.py] *)

Module Predictions.
Import Py.
Local Open Scope py_scope.

(** The attributes of a DataRobot project and model the function reads.
    [p.metric] is [None] for a project that has no metric yet. *)
Record Project := mkProject {
  project_name : string;
  project_id : string;
  project_metric : option string
}.

Record Model := mkModel {
  model_type : string;
  model_id : string
}.

(** A cell of the [stats] frame: a string, a list of series, or NaN. *)
Inductive Cell := CStr (s : string) | CSeries (l : list string) | CNaN.

(** The frame, row [i] at position [i]; a column missing from a row reads
    as NaN. *)
Abbreviation DataFrame := (list (gmap string Cell)).

(** One call of [get_top_models_from_projects], with its arguments. *)
Record Call := mkCall {
  call_projects : list Project;
  call_n_models : nat;
  call_metric : option string;
  call_data_subset : string
}.

Local Abbreviation M := (Py.M (list Call)).

(** [stats.loc[i, col] = v], for a row that exists or the next new row. *)
Definition loc_set (i : nat) (col : string) (v : Cell) (stats : DataFrame) : DataFrame :=
  match stats !! i with
  | Some row => <[i := <[col := v]> row]> stats
  | None => stats ++ [{[ col := v ]}]
  end.

(** [stats[col]]: the column, or [KeyError] when no row has it. *)
Definition get_column (stats : DataFrame) (col : string) : M (list Cell) :=
  if existsb (fun row => bool_decide (is_Some (row !! col))) stats
  then ret (map (fun row => default CNaN (row !! col)) stats)
  else raise KeyError.

(** [series.map(d)] for a dict [d]: a value that is no key of [d] gives NaN. *)
Definition series_map (d : gmap string (list string)) (c : Cell) : Cell :=
  match c with
  | CStr k => match d !! k with Some l => CSeries l | None => CNaN end
  | _ => CNaN
  end.

(** [stats[col] = values], row by row. *)
Definition set_column (col : string) (values : list Cell) (stats : DataFrame) : DataFrame :=
  zip_with (fun row v => <[col := v]> row) stats values.

Section Stats.
(** [src.ts_projects.get_top_models_from_projects], whose module is not
    part of the sources at hand: the models it returns are left open. *)
Variable top_models : list Project -> nat -> option string -> string -> list Model.

Definition get_top_models_from_projects (projects : list Project) (n_models : nat)
    (metric : option string) (data_subset : string) : M (list Model) :=
  fun calls =>
    (inr (top_models projects n_models metric data_subset),
     calls ++ [mkCall projects n_models metric data_subset]).

(** The body of the [for] loop, lines 82-96, on the loop variables [i] and
    [p]; [metric] and [stats] live across the iterations. The test
    [if metric is None] is made again at each iteration: as long as
    [metric] is [None] it takes the metric of the project at hand, which
    may be [None] too. *)
Definition loop_body (split_col prefix data_subset : string) (i : nat) (p : Project)
    (metric : option string) (stats : DataFrame) : M (option string * DataFrame) :=
  let metric := match metric with
                | None => project_metric p
                | Some m => Some m
                end in
  let split_col_char := "_" +:+ split_col +:+ "-" in
  let project_name_char := prefix +:+ "_FD:" in
  let stats := loc_set i "Project_Name" (CStr (project_name p)) stats in
  let stats := loc_set i "Project_ID" (CStr (project_id p)) stats in
  cluster <- index (py_split (project_name p) split_col_char) 1 ;;
  let stats := loc_set i split_col (CStr cluster) stats in
  fd_rest <- index (py_split (project_name p) project_name_char) 1 ;;
  fd <- index (py_split fd_rest "_FDW:") 0 ;;
  let stats := loc_set i "FD" (CStr fd) stats in
  fdw_rest <- index (py_split (project_name p) "_FDW:") 1 ;;
  fdw <- index (py_split fdw_rest split_col_char) 0 ;;
  let stats := loc_set i "FDW" (CStr fdw) stats in
  models <- get_top_models_from_projects [p] 1 metric data_subset ;;
  m <- index models 0 ;;
  let stats := loc_set i "Model_Type" (CStr (model_type m)) stats in
  let stats := loc_set i "Model_ID" (CStr (model_id m)) stats in
  ret (metric, stats).

(** [for i, p in enumerate(projects)], from index [i] on. *)
Fixpoint stats_loop (split_col prefix data_subset : string) (i : nat)
    (projects : list Project) (metric : option string) (stats : DataFrame)
    : M (option string * DataFrame) :=
  match projects with
  | [] => ret (metric, stats)
  | p :: rest =>
      st <- loop_body split_col prefix data_subset i p metric stats ;;
      stats_loop split_col prefix data_subset (S i) rest (fst st) (snd st)
  end.

(** [get_project_stats(projects, n_models, cluster_to_series_map, metric,
    split_col, prefix, data_subset)], lines 56-99. *)
Definition get_project_stats (projects : list Project) (n_models : nat)
    (cluster_to_series_map : gmap string (list string)) (metric : option string)
    (split_col prefix data_subset : string) : M DataFrame :=
  st <- stats_loop split_col prefix data_subset 0 projects metric [] ;;
  let stats := snd st in
  col <- get_column stats split_col ;;
  ret (set_column "Series" (map (series_map cluster_to_series_map) col) stats).

End Stats.

(** The call the loop makes for project [p] when the value of [metric] is
    [metric]: the one project, [n_models=1], that value. *)
Definition call_for (data_subset : string) (metric : option string) (p : Project) : Call :=
  mkCall [p] 1 metric data_subset.

(** The value of [metric] after lines 82-83 of the iteration on [p]. *)
Definition metric_at (metric : option string) (p : Project) : option string :=
  match metric with
  | None => project_metric p
  | Some m => Some m
  end.

(** The metric of the first project of the list that has one. *)
Fixpoint first_metric (projects : list Project) : option string :=
  match projects with
  | [] => None
  | p :: rest =>
      match project_metric p with
      | Some m => Some m
      | None => first_metric rest
      end
  end.

(** The value of [metric] once the loop has gone over [projects]: the
    argument, or, when the argument is [None], the metric of the first of
    these projects that has one. *)
Definition metric_in_force (metric : option string) (projects : list Project) : option string :=
  match metric with
  | Some m => Some m
  | None => first_metric projects
  end.

(** The calls to the leaderboard a loop over all of [projects] makes: for
    the project at index [i], the value of [metric] after the projects up
    to that one. *)
Definition expected_calls (data_subset : string) (metric : option string)
    (projects : list Project) : list Call :=
  imap (fun i p => call_for data_subset (metric_in_force metric (take (S i) projects)) p)
       projects.

(** Two projects with different metrics of their own, a project without
    a metric, and a leaderboard that names the metric it was sorted by. *)
Definition cluster1 : Project := mkProject "TS_FD:1-7_FDW:28_Cluster-1" "p1" (Some "RMSE").
Definition cluster2 : Project := mkProject "TS_FD:1-7_FDW:28_Cluster-2" "p2" (Some "MAE").
Definition cluster0 : Project := mkProject "TS_FD:1-7_FDW:28_Cluster-0" "p0" None.

Definition sorted_by (projects : list Project) (n_models : nat)
    (metric : option string) (data_subset : string) : list Model :=
  [mkModel ("best by " +:+ default "the metric of the project" metric) "m0"].

End Predictions.

(** ** Strings: slices, search, replacement *)

Module Text.

(** [s[n:]] *)
Fixpoint str_drop (n : nat) (s : string) : string :=
  match n, s with
  | S n', String _ s' => str_drop n' s'
  | _, _ => s
  end.

(** [s[:n]] *)
Fixpoint str_take (n : nat) (s : string) : string :=
  match n, s with
  | S n', String a s' => String a (str_take n' s')
  | _, _ => EmptyString
  end.

(** [s.rfind(c)] for one character [c]: the index of its last occurrence,
    [None] where Python gives -1. *)
Fixpoint rfind (c : ascii) (s : string) : option nat :=
  match s with
  | EmptyString => None
  | String a s' =>
      match rfind c s' with
      | Some i => Some (S i)
      | None => if Ascii.eqb a c then Some 0 else None
      end
  end.

(** [s.replace(old, new)] for single characters. *)
Fixpoint replace_char (old new : ascii) (s : string) : string :=
  match s with
  | EmptyString => EmptyString
  | String a s' => String (if Ascii.eqb a old then new else a) (replace_char old new s')
  end.

(** [c in s] *)
Fixpoint has_char (c : ascii) (s : string) : bool :=
  match s with
  | EmptyString => false
  | String a s' => Ascii.eqb a c || has_char c s'
  end.

(** [sep.join(pieces)] *)
Fixpoint py_join (sep : string) (pieces : list string) : string :=
  match pieces with
  | [] => EmptyString
  | [x] => x
  | x :: rest => x +:+ sep +:+ py_join sep rest
  end.

(** [sep in s] *)
Fixpoint occurs (sep s : string) : bool :=
  String.prefix sep s
  || match s with
     | EmptyString => false
     | String _ s' => occurs sep s'
     end.

End Text.


(** ** The prompts of the loader, [get_args] *)

Module GetArgs.
Import Py Loader Text.

(** [p.rfind(sep) + 1] *)
Definition after_last (c : ascii) (p : string) : nat :=
  match rfind c p with
  | Some i => S i
  | None => 0
  end.

(** [os.path.basename(p)] of [posixpath]: [i = p.rfind('/') + 1; return p[i:]]. *)
Definition basename (p : string) : string :=
  let i := after_last "/" p in
  str_drop i p.

(** The [while] loop of [genericpath._splitext]: it runs over the [n]
    characters from [filenameIndex] up to the last dot and answers whether
    one of them is not a dot. *)
Fixpoint non_dot_before (n : nat) (s : string) : bool :=
  match n, s with
  | S n', String a s' => if Ascii.eqb a "." then non_dot_before n' s' else true
  | _, _ => false
  end.

(** [os.path.splitext(p)] of [posixpath], that is
    [genericpath._splitext(p, '/', None, '.')]: split at the last dot when
    it comes after the last slash and after a character of the file name
    that is not a dot. *)
Definition splitext (p : string) : string * string :=
  let filenameIndex := after_last "/" p in
  match rfind "." p with
  | Some dotIndex =>
      if (filenameIndex <=? dotIndex)
         && non_dot_before (dotIndex - filenameIndex) (str_drop filenameIndex p)
      then (str_take dotIndex p, str_drop dotIndex p)
      else (p, EmptyString)
  | None => (p, EmptyString)
  end.

(** What the operator types at the five prompts, in order. *)
Record Typed := mkTyped {
  typed_file : string;
  typed_table : string;
  typed_database : string;
  typed_schema : string;
  typed_password : string
}.

(** The table name [get_args] proposes for a path, lines 34-35. *)
Definition default_tablename (file_name : string) : string :=
  let tablename := fst (splitext (basename file_name)) in
  replace_char " " "_" (replace_char "-" "_" tablename).

(** [x if x else d]: an empty answer is falsy. *)
Definition or_default (answer d : string) : string :=
  match answer with
  | EmptyString => d
  | _ => answer
  end.

(** [get_args()], lines 28-50. The two defaults are left blank in the
    source ([default_database = # database name]) and are parameters here.
    The result is the tuple returned and the prompts shown, in order. *)
Definition get_args (default_database default_schema : string) (t : Typed)
    : Args * list string :=
  let file_name := typed_file t in
  let tablename := default_tablename file_name in
  let new_tablename := typed_table t in
  let prompt_table :=
    "Postgres tablename: (or hit Enter to use " +:+ tablename +:+ nl +:+ tab in
  let tablename := or_default new_tablename tablename in
  let database := or_default (typed_database t) default_database in
  let schema := or_default (typed_schema t) default_schema in
  let postgres_password := typed_password t in
  (mkArgs file_name tablename database schema postgres_password,
   ["What is the complete path and name of the csv file?" +:+ nl +:+ tab;
    prompt_table;
    "Postgres Database: (or hit Enter to use " +:+ default_database +:+ ")" +:+ nl +:+ tab;
    "Schema: (or hit Enter to use " +:+ default_schema +:+ ")" +:+ nl +:+ tab;
    "Postgres Password: "]).

End GetArgs.


(** ** More environments and worlds for the loader *)

Module LoaderMore.
Import Py Loader Text.

(** A name that means one thing only when pasted unquoted into a
    statement: a plain identifier that the server leaves as it is. *)
Definition safe_name (s : string) : bool :=
  plain_identifier s && is_folded s.

(** A path that stays inside the quotes of [COPY ... FROM '{file_name}'] and
    has no [%] for the driver to read as a parameter. *)
Definition safe_path (p : string) : bool :=
  negb (has_char "'" p) && negb (has_char "%" p).

(** The header of the file at [path], if there is one, is made of plain
    names the server does not reserve. *)
Definition safe_header (E : Env) (w : World) (path : string) : bool :=
  match fs w !! path with
  | Some (header :: _) => plain_header E header
  | _ => true
  end.

(** A server whose re-normalized copy is the file itself: the second [COPY]
    meets the same records as the first. *)
Definition verbatim : Env :=
  mkEnv (fun _ => None) strict_copy Some is_reserved (fun _ => None).

(** pandas cannot read the file at all. *)
Definition unreadable : Env :=
  mkEnv (fun _ => None) strict_copy (fun _ => None) is_reserved (fun _ => None).

(** An empty file, and the stale table. *)
Definition empty_file_world : World :=
  mkWorld {[ "sales.csv" := [] ]} {[ "public.sales" := stale_sales ]} [] [] [] [] 0.

(** The missing path, with connection 0 open. *)
Definition missing_world_connected : World :=
  mkWorld ∅ {[ "public.sales" := stale_sales ]} [ConnOpen] [false] [] [] 0.

(** The file with a blank line, the stale table under its name. *)
Definition gappy_stale_world : World :=
  mkWorld {[ "x.csv" := gappy_csv ]} {[ "s.x" := stale_sales ]} [ConnOpen] [false] [] [] 0.
End LoaderMore.


(** ** Vocabulary for the rows of the statistics frame *)

Module StatsVocabulary.
Import Py Predictions Text.

(** The three fields [get_project_stats] reads off a project name, by the
    expressions of lines 90-92: the cluster, the forecast distance and the
    feature derivation window. [None] where an index is out of range. *)
Definition parse_name (split_col prefix name : string) : option (string * string * string) :=
  let split_col_char := "_" +:+ split_col +:+ "-" in
  let project_name_char := prefix +:+ "_FD:" in
  cluster ← py_split name split_col_char !! 1;
  fd_rest ← py_split name project_name_char !! 1;
  fd ← py_split fd_rest "_FDW:" !! 0;
  fdw_rest ← py_split name "_FDW:" !! 1;
  fdw ← py_split fdw_rest split_col_char !! 0;
  Some (cluster, fd, fdw).

(** The row the loop writes for a project, column after column in the
    order of the assignments (a later one wins on the same column). *)
Definition stats_row (split_col : string) (p : Project) (cluster fd fdw : string) (m : Model)
    : gmap string Cell :=
  <["Model_ID" := CStr (model_id m)]>
  (<["Model_Type" := CStr (model_type m)]>
  (<["FDW" := CStr fdw]>
  (<["FD" := CStr fd]>
  (<[split_col := CStr cluster]>
  (<["Project_ID" := CStr (project_id p)]>
  {["Project_Name" := CStr (project_name p)]}))))).

(** The row once [stats['Series']] is assigned from the column [split_col]. *)
Definition with_series (split_col : string) (cluster_to_series_map : gmap string (list string))
    (row : gmap string Cell) : gmap string Cell :=
  <["Series" := series_map cluster_to_series_map (default CNaN (row !! split_col))]> row.

(** A project whose name has no cluster marker. *)
Definition unmarked : Project := mkProject "TS_FD:1-7_FDW:28" "p3" (Some "RMSE").

End StatsVocabulary.


(** ** Deployments, [deploy_models] *)

Module Deploy.

(** The exceptions [deploy_models] can end with: a failed [assert], the
    unbound name on line 133, [list()[0]] on an empty list, and an error of
    the DataRobot client outside the [try] block. *)
Inductive Raised := AssertionError | NameError | IndexError | ClientError.

(** The attributes of a model the function reads. *)
Record LearningModel := mkLearningModel {
  lm_id : string;
  lm_project_id : string;
  lm_model_type : string
}.

(** A deployment and a prediction server, each by its id. *)
Abbreviation Deployment := string.

(** The DataRobot client, as far as the function uses it; [None] stands for
    a call that raises.
    - [project_name_of pid]: [dr.Project.get(pid).project_name];
    - [prediction_servers]: the ids of [dr.PredictionServer.list()];
    - [create_deployment made mid label description server]:
      [dr.Deployment.create_from_learning_model(mid, label=..., ...)], which
      may depend on the deployments [made] so far in this run. *)
Record Api := mkApi {
  project_name_of : string → option string;
  prediction_servers : option (list string);
  create_deployment : list Deployment → string → string → string → string → option Deployment
}.

Definition success_line (m : LearningModel) (project : string) : string :=
  "Deployment of " +:+ lm_model_type m +:+ " into " +:+ project +:+ " successful!".

Definition failure_line (m : LearningModel) : string :=
  "*** Something went wrong when deploying " +:+ lm_model_type m +:+ " ***".

Section Client.
Variable A : Api.

(** The body of the [for] loop, lines 147-153, on the local list
    [deployments] and the lines printed so far. The bare [except] takes
    every exception of the [try] block, also the one of [dr.Project.get]
    inside the message, raised after the deployment was appended. *)
Definition deploy_one (server_id : string) (st : list Deployment * list string)
    (mld : LearningModel * string * string) : list Deployment * list string :=
  let '(deployments, out) := st in
  let '(m, l, d) := mld in
  match create_deployment A deployments (lm_id m) l d server_id with
  | Some dep =>
      let deployments := deployments ++ [dep] in
      match project_name_of A (lm_project_id m) with
      | Some project => (deployments, out ++ [success_line m project])
      | None => (deployments, out ++ [failure_line m])
      end
  | None => (deployments, out ++ [failure_line m])
  end.

(** [[dr.Project.get(x.project_id).project_name for x in models]] *)
Definition project_names (models : list LearningModel) : option (list string) :=
  mapM (fun x => project_name_of A (lm_project_id x)) models.

(** [deploy_models(models, labels, descriptions, pred_server)], lines
    102-156, with assertions enabled. [models], [labels] and [descriptions]
    are lists by their types, so the [isinstance] checks on them pass; the
    check on [pred_server] evaluates [datarobot.models...], and the module was
    imported as [dr] only. The result comes with the lines printed. *)
Definition deploy_models (models : list LearningModel) (labels descriptions : option (list string))
    (pred_server : option string) : (Raised + list Deployment) * list string :=
  if match labels with
     | Some ls => negb (length models =? length ls)
     | None => false
     end
  then (inl AssertionError, [])
  else if match descriptions with
          | Some ds => negb (length models =? length ds)
          | None => false
          end
  then (inl AssertionError, [])
  else match pred_server with
  | Some _ => (inl NameError, [])
  | None =>
      (* get values if not supplied *)
      match match labels with Some ls => Some ls | None => project_names models end with
      | None => (inl ClientError, [])
      | Some labels =>
          match match descriptions with
                | Some ds => Some ds
                | None =>
                    option_map (map (fun name => "Deployment of best model from " +:+ name))
                               (project_names models)
                end with
          | None => (inl ClientError, [])
          | Some descriptions =>
              match prediction_servers A with
              | None => (inl ClientError, [])
              | Some [] => (inl IndexError, [])
              | Some (server_id :: _) =>
                  (* create deployment for each model *)
                  let '(deployments, out) :=
                    fold_left (deploy_one server_id)
                              (zip (zip models labels) descriptions) ([], []) in
                  (inr deployments, out)
              end
          end
      end
  end.

End Client.

(** Whether a list given for the labels or for the descriptions passes the
    assertion on its length; an argument left out does. *)
Definition fits (models : list LearningModel) (given : option (list string)) : bool :=
  match given with
  | Some l => length models =? length l
  | None => true
  end.

(** A client on which everything works: projects are named after their id,
    there is one server, and a deployment is named after the model. *)
Definition obliging : Api :=
  mkApi (fun pid => Some ("project " +:+ pid)) (Some ["server-1"])
        (fun _ mid _ _ _ => Some ("deployment of " +:+ mid)).

(** The same, except that the project of a model cannot be fetched. *)
Definition forgetful : Api :=
  mkApi (fun _ => None) (Some ["server-1"]) (fun _ mid _ _ _ => Some ("deployment of " +:+ mid)).

Definition two_models : list LearningModel :=
  [mkLearningModel "m1" "p1" "Elastic Net"; mkLearningModel "m2" "p2" "XGBoost"].

End Deploy.


(** ** Properties of the loader *)

Module LoaderProofs.
Import Py Loader.
Local Open Scope py_scope.

#[local] Set Warnings "-clear-no-such-hyp".

(** *** Inversion of the monad's combinators *)

Lemma bind_inr_inv {W A B} (m : Py.M W A) (k : A -> Py.M W B) w b w' :
  bind m k w = (inr b, w') → ∃ a w1, m w = (inr a, w1) ∧ k a w1 = (inr b, w').
Proof.
  unfold bind. destruct (m w) as [[e | a] w1]; [intros [=] | eauto].
Qed.

Lemma try_except_inr_inv {W A} (body handler : Py.M W A) cls w a w' :
  try_except body cls handler w = (inr a, w') →
  body w = (inr a, w') ∨ ∃ w1, body w = (inl cls, w1) ∧ handler w1 = (inr a, w').
Proof.
  unfold try_except. destruct (body w) as [[e | a0] w1].
  - destruct (decide (e = cls)) as [-> |]; [eauto | intros [=]].
  - auto.
Qed.

(** The temporary path is never the path of the source. *)
Lemma tmp_ne (f : string) : f +:+ "_tmp" ≠ f.
Proof.
  induction f as [| a f IH]; intros H.
  - discriminate H.
  - change (String a (f +:+ "_tmp") = String a f) in H. injection H as H. auto.
Qed.

Lemma new_events_app w w' evs : trace w' = trace w ++ evs → new_events w w' = evs.
Proof. unfold new_events. intros ->. apply drop_app_length. Qed.

Lemma new_output_app w w' out : stdout w' = stdout w ++ out → new_output w w' = out.
Proof. unfold new_output. intros ->. apply drop_app_length. Qed.

(** Projections of an updated world. *)
Ltac world_simpl :=
  cbn [fs db conns engines stdout trace clock columns rows
       set_fs set_db set_conns set_engines log tick] in *.

(** One step of a run written out as nested matches: simplify the world,
    settle the lookups of a key just inserted or deleted, and split on the
    next outcome that is not yet known. *)
Ltac run_step :=
  world_simpl;
  rewrite ?lookup_delete_eq, ?lookup_insert_eq in *;
  first [ progress simplify_eq
        | match goal with
          | H : context [match ?x with _ => _ end] |- _ =>
              lazymatch x with
              | context [match _ with _ => _ end] => fail
              | _ => destruct x eqn:?
              end
          end ].

Ltac unfold_run H :=
  unfold csv_to_table, bind, try_except, conn_execute, read_header, pd_read_csv_to_csv,
    first_cell, conn_close, print, ret, raise, run_stmt in H.

Ltac events_simpl :=
  unfold new_events; world_simpl; rewrite <- ?app_assoc;
  rewrite ?drop_app_length, ?drop_all; cbn [app].

Section Runs.
Variable E : Env.

Lemma conn_execute_inr_inv conn s w res w' :
  conn_execute E conn s w = (inr res, w') →
  conns w !! conn = Some ConnOpen ∧ fault_at E (clock w) = None
  ∧ ∃ w1, run_stmt E s w = inr (res, w1) ∧ w' = log (EvExecute s None) (tick w1).
Proof.
  unfold conn_execute. destruct (conns w !! conn) as [[|]|]; try (intros [=]; fail).
  destruct (fault_at E (clock w)); [intros [=] |].
  destruct (run_stmt E s w) as [e | [res1 w1]]; intros [=]; subst. eauto.
Qed.

Lemma conn_execute_DataError_inv conn s w w' :
  conn_execute E conn s w = (inl DataError, w') →
  conns w !! conn = Some ConnOpen ∧ fault_at E (clock w) = None
  ∧ run_stmt E s w = inl DataError ∧ w' = log (EvExecute s (Some DataError)) (tick w).
Proof.
  unfold conn_execute. destruct (conns w !! conn) as [[|]|]; try (intros [=]; fail).
  destruct (fault_at E (clock w)); [intros [=] |].
  destruct (run_stmt E s w) as [e | [res1 w1]]; intros [=]; subst. eauto.
Qed.

(** A statement on a closed connection is refused and changes nothing. *)
Lemma conn_execute_closed conn s w :
  conns w !! conn = Some ConnClosed →
  conn_execute E conn s w = (inl StatementError, w).
Proof. unfold conn_execute. intros ->. reflexivity. Qed.

(** What a run of [csv_to_table] that returns has done: the two ways
    through the [try] block, each with its trace. *)
Lemma csv_to_table_ok_inv tablename schema file_name conn recursed w v w' :
  csv_to_table E tablename schema file_name conn recursed w = (inr v, w') →
  let q := qualified schema tablename in
  let tmp := file_name +:+ "_tmp" in
  ∃ header data cols loaded,
    fs w !! file_name = Some (header :: data)
    ∧ read_columns E (text_columns header) = Some cols
    ∧ conns w !! conn = Some ConnOpen
    ∧ v = PyNone
    ∧ ((loaded = header :: data
        ∧ copy_accepts E cols (header :: data) = true
        ∧ fs w' = fs w
        ∧ trace w' = trace w ++
            [EvExecute (DropTableIfExists q) None; EvOpen file_name;
             EvExecute (CreateTable q (text_columns header)) None;
             EvExecute (CopyFrom q file_name) None; EvExecute Commit None;
             EvExecute (SelectCount q) None; EvClose conn])
       ∨ (copy_accepts E cols (header :: data) = false
          ∧ read_csv_to_csv E (header :: data) = Some loaded
          ∧ copy_accepts E cols loaded = true
          ∧ fs w' = <[tmp := loaded]> (fs w)
          ∧ trace w' = trace w ++
            [EvExecute (DropTableIfExists q) None; EvOpen file_name;
             EvExecute (CreateTable q (text_columns header)) None;
             EvExecute (CopyFrom q file_name) (Some DataError);
             EvRewrite file_name tmp;
             EvExecute (CopyFrom q tmp) None; EvExecute Commit None;
             EvExecute (SelectCount q) None; EvClose conn]))
    ∧ db w' = <[q := mkTable cols (tail loaded)]> (db w)
    ∧ conns w' = <[conn := ConnClosed]> (conns w)
    ∧ engines w' = engines w
    ∧ stdout w' = stdout w ++ [rows_loaded_line (length (tail loaded))].
Proof.
  intros H q tmp. unfold csv_to_table in H. fold q tmp in H.
  apply bind_inr_inv in H as (r1 & w1 & H1 & H).
  apply conn_execute_inr_inv in H1 as (Hopen & _ & w1' & Hrun & ->).
  cbn in Hrun. injection Hrun as <- <-.
  apply bind_inr_inv in H as (header & w2 & H2 & H).
  unfold read_header in H2. world_simpl.
  destruct (fs w !! file_name) as [[| header' data] |] eqn:Hfile; try discriminate.
  injection H2 as -> <-.
  apply bind_inr_inv in H as (r3 & w3 & H3 & H).
  apply conn_execute_inr_inv in H3 as (_ & _ & w3' & Hrun & ->).
  unfold run_stmt in Hrun. world_simpl. rewrite lookup_delete_eq in Hrun.
  destruct (read_columns E (text_columns header)) as [cols |] eqn:Hcols; try discriminate.
  injection Hrun as <- <-.
  apply bind_inr_inv in H as (r4 & w4 & H4 & H).
  apply bind_inr_inv in H as (res & w5 & H5 & H).
  apply bind_inr_inv in H as (num_rows & w6 & H6 & H).
  apply bind_inr_inv in H as ([] & w7 & H7 & H).
  apply bind_inr_inv in H as ([] & w8 & H8 & H).
  injection H as <- <-. injection H8 as <-. injection H7 as <-.
  exists header, data, cols. unfold rows_loaded_line.
  apply try_except_inr_inv in H4 as [H4 | (wd & H4 & Hh)].
  - (* the first COPY and its commit went through *)
    apply bind_inr_inv in H4 as (r41 & w41 & Hcopy & Hcommit).
    apply conn_execute_inr_inv in Hcopy as (_ & _ & w41' & Hrun & ->).
    cbn in Hrun. world_simpl. rewrite lookup_insert_eq, Hfile in Hrun. cbn in Hrun.
    destruct (copy_accepts E cols (header :: data)) eqn:Hacc;
      try discriminate.
    injection Hrun as <- <-.
    apply conn_execute_inr_inv in Hcommit as (_ & _ & w42' & Hrun & ->).
    cbn in Hrun. injection Hrun as <- <-.
    apply conn_execute_inr_inv in H5 as (_ & _ & w5' & Hrun & ->).
    cbn in Hrun. world_simpl. rewrite lookup_insert_eq in Hrun. injection Hrun as <- <-.
    cbn in H6. injection H6 as <- <-.
    exists (header :: data). world_simpl. rewrite <- !app_assoc. cbn [app tail].
    rewrite insert_insert_eq, insert_delete_eq.
    repeat split; auto.
  - (* the first COPY raised a data error: rewrite, then one more COPY *)
    apply bind_inr_inv in Hh as ([] & wp & Hpd & Hh).
    apply bind_inr_inv in Hh as (r41 & w41 & Hcopy & Hcommit).
    unfold bind in H4.
    destruct (conn_execute E conn (CopyFrom q file_name) _) as [[e | r] wc] eqn:Hfirst.
    + injection H4 as -> ->.
      apply conn_execute_DataError_inv in Hfirst as (_ & _ & Hrun & ->).
      cbn in Hrun. world_simpl. rewrite lookup_insert_eq, Hfile in Hrun. cbn in Hrun.
      destruct (copy_accepts E cols (header :: data)) eqn:Hacc;
        try discriminate.
      unfold pd_read_csv_to_csv in Hpd. world_simpl. rewrite Hfile in Hpd.
      destruct (read_csv_to_csv E (header :: data)) as [loaded |] eqn:Hpandas;
        try discriminate.
      injection Hpd as <-.
      apply conn_execute_inr_inv in Hcopy as (_ & _ & w41' & Hrun' & ->).
      cbn in Hrun'. world_simpl. rewrite !lookup_insert_eq in Hrun'. cbn in Hrun'.
      destruct (copy_accepts E cols loaded) eqn:Hacc'; try discriminate.
      injection Hrun' as <- <-.
      apply conn_execute_inr_inv in Hcommit as (_ & _ & w42' & Hrun' & ->).
      cbn in Hrun'. injection Hrun' as <- <-.
      apply conn_execute_inr_inv in H5 as (_ & _ & w5' & Hrun' & ->).
      cbn in Hrun'. world_simpl. rewrite lookup_insert_eq in Hrun'.
      injection Hrun' as <- <-.
      cbn in H6. injection H6 as <- <-.
      exists loaded. world_simpl. rewrite <- !app_assoc. cbn [app tail].
      rewrite insert_insert_eq, insert_delete_eq.
      repeat split; auto. right. repeat split; auto.
    + (* a data error cannot come from the commit *)
      exfalso. unfold conn_execute in H4.
      repeat case_match; simplify_eq.
Qed.

(** [FileNotFoundError] leaves [csv_to_table] from one place only: the
    [open] of a missing file, after the [DROP] went through. *)
Lemma csv_to_table_FileNotFoundError_inv tablename schema file_name conn recursed w w' :
  csv_to_table E tablename schema file_name conn recursed w = (inl FileNotFoundError, w') →
  fs w !! file_name = None ∧ conns w !! conn = Some ConnOpen
  ∧ fault_at E (clock w) = None
  ∧ w' = log (EvExecute (DropTableIfExists (qualified schema tablename)) None)
           (tick (set_db (delete (qualified schema tablename) (db w)) w)).
Proof.
  intros H. unfold_run H.
  repeat run_step.
  all: repeat split; auto.
Qed.

(** A run with a missing file, step by step. *)
Lemma csv_to_table_missing_file tablename schema file_name conn recursed w :
  fs w !! file_name = None →
  conns w !! conn = Some ConnOpen →
  fault_at E (clock w) = None →
  csv_to_table E tablename schema file_name conn recursed w
  = (inl FileNotFoundError,
     log (EvExecute (DropTableIfExists (qualified schema tablename)) None)
       (tick (set_db (delete (qualified schema tablename) (db w)) w))).
Proof.
  intros Hfile Hopen Hfault.
  unfold csv_to_table, bind, conn_execute, read_header.
  rewrite Hopen, Hfault. cbn [run_stmt]. world_simpl. rewrite Hfile. reflexivity.
Qed.

(** [csv_to_table] never touches the engines and never adds or removes a
    connection. *)
Lemma csv_to_table_frame tablename schema file_name conn recursed w :
  let w' := snd (csv_to_table E tablename schema file_name conn recursed w) in
  engines w' = engines w ∧ length (conns w') = length (conns w).
Proof.
  intros w'. subst w'.
  destruct (csv_to_table E tablename schema file_name conn recursed w) as [r w'] eqn:H.
  unfold_run H.
  repeat run_step.
  all: cbn [snd]; world_simpl; rewrite ?length_insert; auto.
Qed.

(** [main] once the connection is acquired: whatever [csv_to_table]
    does, the [finally] block closes the connection and disposes of the
    engine. *)
Lemma main_releases_when_connected a w :
  fault_at E (clock w) = None →
  let w' := snd (main E a w) in
  conns w' !! length (conns w) = Some ConnClosed
  ∧ engines w' !! length (engines w) = Some true.
Proof.
  intros Hfault w'. subst w'.
  unfold main, bind, create_engine, print, main_try, engine_connect.
  world_simpl. rewrite Hfault.
  match goal with
  | |- context [csv_to_table E ?t ?s ?f ?c ?r ?w0] =>
      pose proof (csv_to_table_frame t s f c r w0) as Hframe;
      destruct (csv_to_table E t s f c r w0) as [[e | v] w2]
  end.
  all: cbn [snd] in Hframe; world_simpl; destruct Hframe as [Heng Hlen].
  all: rewrite length_app in Hlen; cbn [length] in Hlen.
  all: unfold try_finally, try_except, main_finally, bind, conn_close, engine_dispose,
         print, ret.
  all: try destruct (decide (e = FileNotFoundError)).
  all: cbn [snd]; world_simpl; rewrite Heng.
  all: split;
    [ apply list_lookup_insert_eq; lia
    | rewrite list_lookup_insert_eq; [reflexivity | rewrite length_app; cbn; lia] ].
Qed.

(** What a run of [main] that ends normally has done: either the file
    was missing, and the table is gone, or the load went through. *)
Lemma main_ok_inv a w w' :
  main E a w = (inr tt, w') →
  let q := qualified (schema a) (tablename a) in
  let tmp := file_name a +:+ "_tmp" in
  (fs w !! file_name a = None
   ∧ fs w' = fs w
   ∧ db w' = delete q (db w)
   ∧ new_output w w' = [loading_line a; hint; done_line])
  ∨ (∃ header data cols loaded,
       fs w !! file_name a = Some (header :: data)
       ∧ read_columns E (text_columns header) = Some cols
       ∧ copied_file E (header :: data) = Some loaded
       ∧ (fs w' = fs w ∨ fs w' = <[tmp := loaded]> (fs w))
       ∧ db w' = <[q := mkTable cols (tail loaded)]> (db w)
       ∧ new_output w w'
         = [loading_line a; rows_loaded_line (length (tail loaded)); done_line]).
Proof.
  intros H q tmp.
  unfold main, bind, create_engine, print, main_try, engine_connect in H.
  world_simpl.
  destruct (fault_at E (clock w)) eqn:Hfault.
  { (* the connection was never acquired: [finally] raises *)
    unfold try_finally, try_except, main_finally, raise in H.
    cbn in H. discriminate H. }
  match type of H with
  | context [csv_to_table E ?t ?s ?f ?c ?r ?w0] =>
      destruct (csv_to_table E t s f c r w0) as [[e | v] w2] eqn:Hrun
  end.
  - (* [csv_to_table] raised: only a caught [FileNotFoundError] ends normally *)
    unfold try_finally, try_except, main_finally, bind, conn_close, engine_dispose,
      print, ret in H.
    destruct (decide (e = FileNotFoundError)) as [-> | Hne]; [| discriminate H].
    apply csv_to_table_FileNotFoundError_inv in Hrun as (Hfile & _ & _ & ->).
    world_simpl. injection H as <-. left. unfold new_output. world_simpl.
    rewrite <- !app_assoc, drop_app_length. auto.
  - (* [csv_to_table] returned *)
    apply csv_to_table_ok_inv in Hrun
      as (header & data & cols & loaded & Hfile & Hcols & _ & _ & Hpath & Hdb & _ & _ & Hout).
    world_simpl.
    unfold try_finally, try_except, main_finally, bind, conn_close, engine_dispose,
      print, ret in H.
    injection H as <-. right. exists header, data, cols, loaded.
    unfold new_output. world_simpl. rewrite Hout, <- !app_assoc, drop_app_length.
    split; [exact Hfile |]. split; [exact Hcols |]. split.
    { unfold copied_file. rewrite Hcols.
      destruct Hpath as [(-> & -> & _) | (-> & -> & -> & _)]; reflexivity. }
    split; [destruct Hpath as [(_ & _ & -> & _) | (_ & _ & _ & -> & _)]; auto |].
    split; [exact Hdb | reflexivity].
Qed.

(** *** The table a load leaves behind *)

Lemma text_columns_names header : map fst (text_columns header) = header.
Proof.
  unfold text_columns. induction header as [| col header IH]; cbn; [| rewrite IH]; reflexivity.
Qed.

Lemma text_columns_types header : Forall (λ c : Column, snd c = "text") (text_columns header).
Proof.
  unfold text_columns. induction header as [| col header IH]; cbn; constructor; auto.
Qed.

Lemma server_columns_names header : map fst (server_columns header) = map fold_name header.
Proof.
  unfold server_columns. induction header as [| col header IH]; cbn; [| rewrite IH]; reflexivity.
Qed.

Lemma server_columns_types header :
  Forall (λ c : Column, snd c = "text") (server_columns header).
Proof.
  unfold server_columns. induction header as [| col header IH]; cbn; constructor; auto.
Qed.

(** A header of names that are what the server makes of them is kept. *)
Lemma folded_header_kept header :
  Forall (λ col, is_folded col = true) header → map fold_name header = header.
Proof.
  induction 1 as [| col header Hcol _ IH]; cbn; [reflexivity |].
  unfold is_folded in Hcol. apply bool_decide_eq_true in Hcol. rewrite Hcol, IH. reflexivity.
Qed.

Lemma text_columns_plain header :
  forallb (plain_column E) (text_columns header) = plain_header E header.
Proof.
  unfold plain_header, text_columns, plain_column.
  induction header as [| col header IH]; cbn; [| rewrite IH]; reflexivity.
Qed.

Lemma text_columns_folded header :
  map (λ c : Column, fold_name (fst c)) (text_columns header) = map fold_name header.
Proof.
  unfold text_columns.
  induction header as [| col header IH]; cbn; [| rewrite IH]; reflexivity.
Qed.

Lemma text_columns_server header :
  map (λ c : Column, (fold_name (fst c), snd c)) (text_columns header) = server_columns header.
Proof.
  unfold text_columns, server_columns.
  induction header as [| col header IH]; cbn; [| rewrite IH]; reflexivity.
Qed.

(** What [CREATE TABLE] makes of a header of plain names: the folded
    names, which are then pairwise distinct. *)
Lemma read_columns_plain header cols :
  plain_header E header = true →
  read_columns E (text_columns header) = Some cols →
  cols = server_columns header ∧ NoDup (map fold_name header).
Proof.
  unfold read_columns.
  rewrite text_columns_plain, text_columns_folded, text_columns_server. intros ->.
  destruct (bool_decide _) eqn:Hdup; cbn [andb]; [| discriminate].
  apply bool_decide_eq_true in Hdup.
  destruct (_ <=? _); intros [=]; auto.
Qed.

Lemma copied_file_of_path header data cols loaded :
  read_columns E (text_columns header) = Some cols →
  (loaded = header :: data
   ∧ copy_accepts E cols (header :: data) = true)
  ∨ (copy_accepts E cols (header :: data) = false
     ∧ read_csv_to_csv E (header :: data) = Some loaded
     ∧ copy_accepts E cols loaded = true) →
  copied_file E (header :: data) = Some loaded.
Proof.
  unfold copied_file. intros -> [(-> & ->) | (-> & -> & ->)]; reflexivity.
Qed.

(** C1 (amended): after a run of [csv_to_table] that returns, on a source
    file whose header [header] is made of plain names the server does not
    reserve, the table [schema.tablename] has one column per header entry,
    in order, named by the header entry as the server folds it (lower case,
    63 bytes at most), the names pairwise distinct, every column of type
    text; the column list is the header itself when every entry is already
    folded. Its rows are the records after the header of the file the
    [COPY] that succeeded read: the source itself when the first [COPY]
    took it (then the count is the number of records after the source's
    header), the copy re-normalized by pandas otherwise. *)
Theorem csv_to_table_loads_header_and_copied_rows
    tablename schema file_name conn recursed header data w v w' :
  fs w !! file_name = Some (header :: data) →
  plain_header E header = true →
  csv_to_table E tablename schema file_name conn recursed w = (inr v, w') →
  ∃ tbl loaded,
    db w' !! qualified schema tablename = Some tbl
    ∧ map fst (columns tbl) = map fold_name header
    ∧ (Forall (λ col, is_folded col = true) header → map fst (columns tbl) = header)
    ∧ NoDup (map fst (columns tbl))
    ∧ Forall (λ c : Column, snd c = "text") (columns tbl)
    ∧ copied_file E (header :: data) = Some loaded
    ∧ rows tbl = tail loaded
    ∧ length (rows tbl) = length (tail loaded)
    ∧ (copy_accepts E (server_columns header) (header :: data) = true →
       length (rows tbl) = length data).
Proof.
  intros Hfile Hplain Hrun.
  apply csv_to_table_ok_inv in Hrun
    as (header' & data' & cols & loaded & Hfile' & Hcols & _ & _ & Hpath & Hdb & _).
  rewrite Hfile in Hfile'. injection Hfile' as <- <-.
  pose proof (read_columns_plain header cols Hplain Hcols) as [Heq Hdup].
  exists (mkTable cols (tail loaded)), loaded.
  rewrite Hdb, lookup_insert_eq. cbn [columns rows].
  split; [reflexivity |].
  split; [rewrite Heq; apply server_columns_names |].
  split; [intros Hfolded; rewrite Heq, server_columns_names; apply folded_header_kept, Hfolded |].
  split; [rewrite Heq, server_columns_names; exact Hdup |].
  split; [rewrite Heq; apply server_columns_types |].
  split.
  { apply (copied_file_of_path header data cols loaded Hcols).
    destruct Hpath as [(? & ? & _) | (? & ? & ? & _)]; auto. }
  split; [reflexivity |]. split; [reflexivity |].
  rewrite <- Heq. intros Hacc.
  destruct Hpath as [(-> & _) | (Hrej & _)]; [reflexivity | congruence].
Qed.

(** C2 (amended): for a path that does not exist, with the connection
    acquired and the [DROP] accepted, [main] ends normally after printing
    the hint about the full path; by then it has sent
    [DROP TABLE IF EXISTS], and nothing else, to the server: a table that
    existed before is gone. *)
Theorem main_missing_file_drops_then_reports a w :
  fs w !! file_name a = None →
  fault_at E (clock w) = None →
  fault_at E (S (clock w)) = None →
  let out := main E a w in
  let q := qualified (schema a) (tablename a) in
  fst out = inr tt
  ∧ new_output w (snd out) = [loading_line a; hint; done_line]
  ∧ new_events w (snd out)
    = [EvConnect None; EvExecute (DropTableIfExists q) None;
       EvClose (length (conns w)); EvDispose (length (engines w))]
  ∧ db (snd out) = delete q (db w).
Proof.
  intros Hfile Hconnect Hdrop out q. subst out.
  unfold main, bind, create_engine, print, main_try, engine_connect.
  world_simpl. rewrite Hconnect.
  rewrite csv_to_table_missing_file; world_simpl; auto.
  2: { apply list_lookup_middle. reflexivity. }
  unfold try_finally, try_except, main_finally, bind, conn_close, engine_dispose, print, ret.
  cbn [fst snd decide]. 
  destruct (decide (FileNotFoundError = FileNotFoundError)) as [_ | Hne]; [| congruence].
  cbn [fst snd]. unfold new_output, new_events. world_simpl.
  rewrite <- !app_assoc, !drop_app_length. auto.
Qed.

(** Bounds that hold of every run, whatever the file and the server: the
    rewrite by pandas is in the trace if and only if the first [COPY]
    raised a data error, no statement of the [try] block is sent twice,
    and an exception of the retry is the outcome of [csv_to_table]. *)
Lemma csv_to_table_retry_bounds tablename schema file_name conn recursed w :
  let q := qualified schema tablename in
  let tmp := file_name +:+ "_tmp" in
  let out := csv_to_table E tablename schema file_name conn recursed w in
  let evs := new_events w (snd out) in
  (EvRewrite file_name tmp ∈ evs ↔ EvExecute (CopyFrom q file_name) (Some DataError) ∈ evs)
  ∧ (EvRewrite file_name tmp ∈ evs →
     ∃ src, fs w !! file_name = Some src
       ∧ match read_csv_to_csv E src with
         | Some rewritten =>
             fs (snd out) !! tmp = Some rewritten
             ∧ count_exec (CopyFrom q tmp) evs = 1
         | None => fst out = inl PandasError
         end)
  ∧ (EvRewrite file_name tmp ∉ evs →
     fs (snd out) = fs w ∧ count_exec (CopyFrom q tmp) evs = 0)
  ∧ count_exec (CopyFrom q file_name) evs ≤ 1
  ∧ count_exec Commit evs ≤ 1
  ∧ (∀ e, EvExecute (CopyFrom q tmp) (Some e) ∈ evs → fst out = inl e)
  ∧ (∀ e, EvExecute Commit (Some e) ∈ evs → fst out = inl e)
  ∧ (∀ e, e ≠ DataError → EvExecute (CopyFrom q file_name) (Some e) ∈ evs → fst out = inl e).
Proof.
  intros q tmp out evs. subst evs out.
  destruct (csv_to_table E tablename schema file_name conn recursed w) as [r w'] eqn:H.
  pose proof (tmp_ne file_name) as Hne. fold tmp in Hne.
  unfold_run H. fold q tmp in H.
  repeat run_step.
  all: cbn [fst snd]; events_simpl.
  all: repeat (first [apply conj | intro]).
  all: try (set_unfold; naive_solver; fail).
  all: try (eexists; split; [reflexivity |];
            match goal with Hp : read_csv_to_csv E _ = _ |- _ => rewrite Hp end;
            first [reflexivity | split; [apply lookup_insert_eq |]]).
  all: try (cbn [count_exec]; repeat case_decide; try congruence; cbn; lia).
Qed.

(** C3: the [try] block of [csv_to_table], statement by statement. Once
    the [DROP], the header and the [CREATE] are through, the first [COPY]
    of the source is sent, and what follows is decided by what comes of it.
    - A data error, and only a data error, is caught: pandas reads the
      whole source and writes it to [file_name + "_tmp"]; the [COPY] from
      that path is then sent once, and after it, when it is accepted, one
      commit, then the count. Whatever the second [COPY] raises, a data
      error included, whatever pandas raises and whatever the commit raises
      ends the run as the outcome of [csv_to_table]: nothing is sent after
      it, and there is no third [COPY].
    - Any other exception of the first [COPY] ends the run as its outcome:
      no rewrite, no second [COPY], no commit, no file written.
    - When the first [COPY] is accepted, its commit follows, no file is
      written and no second [COPY] is sent. *)
Theorem csv_to_table_retries_once
    tablename schema file_name conn recursed header data cols w :
  conns w !! conn = Some ConnOpen →
  fs w !! file_name = Some (header :: data) →
  read_columns E (text_columns header) = Some cols →
  fault_at E (clock w) = None →
  fault_at E (S (clock w)) = None →
  let q := qualified schema tablename in
  let tmp := file_name +:+ "_tmp" in
  let src := header :: data in
  let out := csv_to_table E tablename schema file_name conn recursed w in
  let evs := new_events w (snd out) in
  let start :=
    [EvExecute (DropTableIfExists q) None; EvOpen file_name;
     EvExecute (CreateTable q (text_columns header)) None] in
  let first r := [EvExecute (CopyFrom q file_name) r] in
  let second r := [EvRewrite file_name tmp; EvExecute (CopyFrom q tmp) r] in
  let count n :=
    match fault_at E n with
    | Some f => (inl (DBAPIError f), [EvExecute (SelectCount q) (Some (DBAPIError f))])
    | None => (inr PyNone, [EvExecute (SelectCount q) None; EvClose conn])
    end in
  match copy_outcome E (S (S (clock w))) cols src with
  | Some DataError =>
      match read_csv_to_csv E src with
      | None =>
          fst out = inl PandasError
          ∧ evs = start ++ first (Some DataError) ++ [EvRewrite file_name tmp]
          ∧ fs (snd out) = fs w
      | Some rewritten =>
          fs (snd out) = <[tmp := rewritten]> (fs w)
          ∧ match copy_outcome E (S (S (S (clock w)))) cols rewritten with
            | Some e =>
                fst out = inl e
                ∧ evs = start ++ first (Some DataError) ++ second (Some e)
            | None =>
                match fault_at E (S (S (S (S (clock w))))) with
                | Some f =>
                    fst out = inl (DBAPIError f)
                    ∧ evs = start ++ first (Some DataError) ++ second None
                            ++ [EvExecute Commit (Some (DBAPIError f))]
                | None =>
                    fst out = fst (count (S (S (S (S (S (clock w)))))))
                    ∧ evs = start ++ first (Some DataError) ++ second None
                            ++ [EvExecute Commit None]
                            ++ snd (count (S (S (S (S (S (clock w)))))))
                end
            end
      end
  | Some e =>
      fst out = inl e
      ∧ evs = start ++ first (Some e)
      ∧ fs (snd out) = fs w
  | None =>
      fs (snd out) = fs w
      ∧ match fault_at E (S (S (S (clock w)))) with
        | Some f =>
            fst out = inl (DBAPIError f)
            ∧ evs = start ++ first None ++ [EvExecute Commit (Some (DBAPIError f))]
        | None =>
            fst out = fst (count (S (S (S (S (clock w))))))
            ∧ evs = start ++ first None ++ [EvExecute Commit None]
                    ++ snd (count (S (S (S (S (clock w))))))
        end
  end.
Proof.
  intros Hopen Hfile Hcols Hdrop Hcreate q tmp src out evs start first second count.
  subst evs out count first second start src. unfold copy_outcome.
  destruct (csv_to_table E tablename schema file_name conn recursed w) as [r w'] eqn:H.
  unfold_run H. fold q tmp in H.
  repeat run_step.
  all: cbn [fst snd]; events_simpl.
  all: repeat split; reflexivity.
Qed.

(** C4 (amended): a run of [csv_to_table] that returns has sent
    the count query on the target table as its last statement and has
    printed the count, the number of rows of the table, in the line
    "<n> rows loaded."; the value it returns is [None]. *)
Theorem csv_to_table_prints_count_returns_None
    tablename schema file_name conn recursed w v w' :
  csv_to_table E tablename schema file_name conn recursed w = (inr v, w') →
  let q := qualified schema tablename in
  v = PyNone
  ∧ ∃ tbl before,
      db w' !! q = Some tbl
      ∧ new_output w w' = [rows_loaded_line (length (rows tbl))]
      ∧ new_events w w' = before ++ [EvExecute (SelectCount q) None; EvClose conn].
Proof.
  intros Hrun q.
  apply csv_to_table_ok_inv in Hrun
    as (header & data & cols & loaded & _ & _ & _ & -> & Hpath & Hdb & _ & _ & Hout).
  split; [reflexivity |].
  exists (mkTable cols (tail loaded)).
  destruct Hpath as [(_ & _ & _ & Htrace) | (_ & _ & _ & _ & Htrace)].
  - eexists (_ :: _ :: _ :: _ :: [_]). fold q in Hdb.
    rewrite Hdb, lookup_insert_eq. split; [reflexivity |].
    split; [apply new_output_app, Hout | apply new_events_app, Htrace].
  - eexists (_ :: _ :: _ :: _ :: _ :: _ :: [_]). fold q in Hdb.
    rewrite Hdb, lookup_insert_eq. split; [reflexivity |].
    split; [apply new_output_app, Hout | apply new_events_app, Htrace].
Qed.

(** The failure behind C5, for any world: when [engine.connect()] raises,
    the [finally] block reads the unbound local [conn], raises
    [UnboundLocalError] in place of the driver's error, and never reaches
    [engine.dispose()]. *)
Lemma main_connect_failure a w f :
  fault_at E (clock w) = Some f →
  let out := main E a w in
  fst out = inl UnboundLocalError
  ∧ engines (snd out) = engines w ++ [false]
  ∧ new_events w (snd out) = [EvConnect (Some (DBAPIError f))].
Proof.
  intros Hfault out. subst out.
  unfold main, bind, create_engine, print, main_try, engine_connect.
  world_simpl. rewrite Hfault.
  unfold try_finally, try_except, main_finally, raise.
  destruct (decide (DBAPIError f = FileNotFoundError)); [discriminate |].
  cbn [fst snd]. unfold new_events. world_simpl.
  rewrite drop_app_length. auto.
Qed.

(** C6: two runs of [main] in succession on the same arguments, both ending
    normally, leave the same database: the second run ends in the state
    the first one ended in, and prints the same lines, the same row count
    among them. *)
Theorem main_twice_same_end_state a w w1 w2 :
  main E a w = (inr tt, w1) →
  main E a w1 = (inr tt, w2) →
  db w2 = db w1 ∧ new_output w1 w2 = new_output w w1.
Proof.
  intros H1 H2.
  apply main_ok_inv in H1. apply main_ok_inv in H2. cbn zeta in H1, H2.
  pose proof (tmp_ne (file_name a)) as Hne.
  destruct H1 as [(Hf1 & Hfs1 & Hdb1 & Hout1)
                 | (h1 & d1 & c1 & l1 & Hf1 & Hr1 & Hc1 & Hfs1 & Hdb1 & Hout1)];
    destruct H2 as [(Hf2 & Hfs2 & Hdb2 & Hout2)
                   | (h2 & d2 & c2 & l2 & Hf2 & Hr2 & Hc2 & Hfs2 & Hdb2 & Hout2)].
  - rewrite Hdb2, Hdb1, delete_delete_eq, Hout1, Hout2. auto.
  - rewrite Hfs1 in Hf2. congruence.
  - exfalso. destruct Hfs1 as [Hfs1 | Hfs1]; rewrite Hfs1 in Hf2.
    + congruence.
    + rewrite lookup_insert_ne in Hf2 by exact Hne. congruence.
  - assert (fs w1 !! file_name a = fs w !! file_name a) as Hsame.
    { destruct Hfs1 as [-> | ->]; [reflexivity |].
      apply lookup_insert_ne. exact Hne. }
    rewrite Hsame, Hf1 in Hf2. injection Hf2 as <- <-.
    rewrite Hr1 in Hr2. injection Hr2 as <-.
    rewrite Hc1 in Hc2. injection Hc2 as <-.
    rewrite Hdb2, Hdb1, insert_insert_eq, Hout1, Hout2. auto.
Qed.

(** C7: when a file [f2] is loaded into the table a file [f1] was loaded
    into before, and the second run goes through, the table is the one
    the content of [f2] alone determines, [loaded_table E src2]: its
    columns are those the server makes of the header of [f2] and its rows
    the records of the copy of [f2], whatever the first load left. *)
Theorem main_second_file_replaces a1 a2 w r1 w1 src2 w2 :
  main E a1 w = (r1, w1) →
  schema a2 = schema a1 →
  tablename a2 = tablename a1 →
  fs w1 !! file_name a2 = Some src2 →
  main E a2 w1 = (inr tt, w2) →
  is_Some (loaded_table E src2)
  ∧ db w2 !! qualified (schema a1) (tablename a1) = loaded_table E src2.
Proof.
  intros _ Hschema Htable Hfile H2.
  apply main_ok_inv in H2. cbn zeta in H2. rewrite Hschema, Htable in H2.
  destruct H2
    as [(Hf2 & _) | (header & data & cols & loaded & Hf2 & Hcols & Hcopied & _ & Hdb & _)].
  - congruence.
  - rewrite Hfile in Hf2. injection Hf2 as ->.
    unfold loaded_table. rewrite Hcols, Hcopied, Hdb, lookup_insert_eq. eauto.
Qed.

(** On an empty file there is no first record: [next] raises
    [StopIteration] once the [DROP] is done, and nothing else is sent. *)
Lemma csv_to_table_empty_file tablename schema file_name conn recursed w :
  fs w !! file_name = Some [] →
  conns w !! conn = Some ConnOpen →
  fault_at E (clock w) = None →
  let q := qualified schema tablename in
  let out := csv_to_table E tablename schema file_name conn recursed w in
  fst out = inl StopIteration
  ∧ new_events w (snd out) = [EvExecute (DropTableIfExists q) None; EvOpen file_name].
Proof.
  intros Hfile Hopen Hfault q out. subst out.
  unfold csv_to_table, bind, conn_execute, read_header.
  rewrite Hopen, Hfault. cbn [run_stmt]. world_simpl. rewrite Hfile.
  cbn [fst snd]. events_simpl. auto.
Qed.

(** C8 (amended): [csv_to_table] has no check of the header. On a file
    whose first record has no field, with the connection open and the
    first two statements accepted, it sends [DROP TABLE IF EXISTS], reads
    the header, and sends [CREATE TABLE] with an empty column list. *)
Theorem csv_to_table_empty_header_creates_table
    tablename schema file_name conn recursed data w :
  fs w !! file_name = Some ([] :: data) →
  conns w !! conn = Some ConnOpen →
  fault_at E (clock w) = None →
  fault_at E (S (clock w)) = None →
  let q := qualified schema tablename in
  let w' := snd (csv_to_table E tablename schema file_name conn recursed w) in
  take 3 (new_events w w')
  = [EvExecute (DropTableIfExists q) None; EvOpen file_name;
     EvExecute (CreateTable q []) None].
Proof.
  intros Hfile Hopen Hdrop Hcreate q w'. subst w'.
  destruct (csv_to_table E tablename schema file_name conn recursed w) as [r w'] eqn:H.
  unfold_run H. fold q in H.
  repeat run_step.
  all: cbn [snd]; events_simpl; reflexivity.
Qed.

(** C9: a run of [csv_to_table] that returns has closed the connection it
    was given: the handle is closed in the final world, and any statement
    sent on it afterwards is refused with [StatementError], the error
    SQLAlchemy wraps the closed connection in, and changes nothing. *)
Theorem csv_to_table_closes_connection tablename schema file_name conn recursed w v w' :
  csv_to_table E tablename schema file_name conn recursed w = (inr v, w') →
  conns w' !! conn = Some ConnClosed
  ∧ ∀ s, conn_execute E conn s w' = (inl StatementError, w').
Proof.
  intros Hrun.
  apply csv_to_table_ok_inv in Hrun
    as (header & data & cols & loaded & _ & _ & Hopen & _ & _ & _ & Hconns & _).
  assert (conns w' !! conn = Some ConnClosed) as Hclosed.
  { rewrite Hconns. apply list_lookup_insert_eq. eapply lookup_lt_Some, Hopen. }
  split; [exact Hclosed |].
  intros s. apply conn_execute_closed, Hclosed.
Qed.

End Runs.

(** *** Concrete runs *)

(** The statement that creates the table for [sales.csv]. *)
Example sales_create_text :
  sql_text (CreateTable (qualified "public" "sales") (text_columns ["date"; "region"; "amount"]))
  = "CREATE TABLE public.sales ( date text," +:+ nl +:+ "region text," +:+ nl
    +:+ "amount text );".
Proof. vm_compute. reflexivity. Qed.

(** The end-to-end scenario: [sales.csv] replaces the stale table. *)
Example sales_run_result :
  fst sales_run = inr PyNone
  ∧ db (snd sales_run) !! "public.sales"
    = Some (mkTable [("date", "text"); ("region", "text"); ("amount", "text")]
                    (tail sales_csv))
  ∧ new_output sales_world_connected (snd sales_run) = [rows_loaded_line 3].
Proof. vm_compute. auto. Qed.

(** The file with a blank line goes through the retry. *)
Example gappy_run_events :
  new_events gappy_world (snd gappy_run)
  = [EvExecute (DropTableIfExists "s.x") None; EvOpen "x.csv";
     EvExecute (CreateTable "s.x" [("a", "text"); ("b", "text")]) None;
     EvExecute (CopyFrom "s.x" "x.csv") (Some DataError);
     EvRewrite "x.csv" "x.csv_tmp";
     EvExecute (CopyFrom "s.x" "x.csv_tmp") None; EvExecute Commit None;
     EvExecute (SelectCount "s.x") None; EvClose 0].
Proof. vm_compute. reflexivity. Qed.

(** The amended C1 at [sales.csv]: three columns of type text, three rows. *)
Lemma csv_to_table_loads_header_and_copied_rows_witness :
  fs sales_world_connected !! "sales.csv"
  = Some (["date"; "region"; "amount"] :: tail sales_csv)
  ∧ plain_header quiet ["date"; "region"; "amount"] = true
  ∧ ∃ tbl loaded,
      db (snd sales_run) !! qualified "public" "sales" = Some tbl
      ∧ map fst (columns tbl) = map fold_name ["date"; "region"; "amount"]
      ∧ (Forall (λ col, is_folded col = true) ["date"; "region"; "amount"] →
         map fst (columns tbl) = ["date"; "region"; "amount"])
      ∧ NoDup (map fst (columns tbl))
      ∧ Forall (λ c : Column, snd c = "text") (columns tbl)
      ∧ copied_file quiet (["date"; "region"; "amount"] :: tail sales_csv) = Some loaded
      ∧ rows tbl = tail loaded
      ∧ length (rows tbl) = length (tail loaded)
      ∧ (copy_accepts quiet (server_columns ["date"; "region"; "amount"])
           (["date"; "region"; "amount"] :: tail sales_csv) = true →
         length (rows tbl) = length (tail sales_csv)).
Proof.
  split; [vm_compute; reflexivity |].
  split; [vm_compute; reflexivity |].
  apply (csv_to_table_loads_header_and_copied_rows quiet "sales" "public" "sales.csv" 0 false
           ["date"; "region"; "amount"] (tail sales_csv) sales_world_connected PyNone).
  - vm_compute. reflexivity.
  - vm_compute. reflexivity.
  - vm_compute. reflexivity.
Defined.

(** The header of [sales.csv] is kept as it is, and so is any header of
    names already folded. *)
Example sales_header_folded :
  Forall (λ col, is_folded col = true) ["date"; "region"; "amount"].
Proof. repeat constructor. Qed.

(** The column part of C1 as stated fails too: the header [Date,Amount]
    gives the columns [date] and [amount]. *)
Example capitals_run_columns :
  (hd_error <$> fs capitals_world !! "c.csv") = Some (Some ["Date"; "Amount"])
  ∧ fst capitals_run = inr PyNone
  ∧ (map fst <$> (columns <$> db (snd capitals_run) !! "s.c")) = Some ["date"; "amount"].
Proof. vm_compute. auto. Qed.

(** A header with the same name twice, up to the case of the letters, is
    refused by [CREATE TABLE]: the run ends there, with no table. *)
Example twice_run_refused :
  fst twice_run = inl (DBAPIError ProgrammingError)
  ∧ db (snd twice_run) !! "s.d" = None
  ∧ new_events twice_world (snd twice_run)
    = [EvExecute (DropTableIfExists "s.d") None; EvOpen "d.csv";
       EvExecute (CreateTable "s.d" [("id", "text"); ("ID", "text")])
                 (Some (DBAPIError ProgrammingError))].
Proof. vm_compute. auto. Qed.

(** C3 at the file with a blank line: the first [COPY] raises a data
    error, the copy without the blank line is written and loaded, and the
    commit follows. *)
Lemma csv_to_table_retries_once_witness :
  conns gappy_world !! 0 = Some ConnOpen
  ∧ fs gappy_world !! "x.csv" = Some (["a"; "b"] :: [["1"; "2"]; []; ["3"; "4"]])
  ∧ read_columns quiet (text_columns ["a"; "b"]) = Some [("a", "text"); ("b", "text")]
  ∧ fs (snd gappy_run) = <["x.csv_tmp" := [["a"; "b"]; ["1"; "2"]; ["3"; "4"]]]> (fs gappy_world)
  ∧ fst gappy_run = inr PyNone
  ∧ new_events gappy_world (snd gappy_run)
    = [EvExecute (DropTableIfExists "s.x") None; EvOpen "x.csv";
       EvExecute (CreateTable "s.x" [("a", "text"); ("b", "text")]) None;
       EvExecute (CopyFrom "s.x" "x.csv") (Some DataError);
       EvRewrite "x.csv" "x.csv_tmp";
       EvExecute (CopyFrom "s.x" "x.csv_tmp") None; EvExecute Commit None;
       EvExecute (SelectCount "s.x") None; EvClose 0].
Proof.
  split; [vm_compute; reflexivity |].
  split; [vm_compute; reflexivity |].
  split; [vm_compute; reflexivity |].
  exact (csv_to_table_retries_once quiet "x" "s" "x.csv" 0 false
           ["a"; "b"] [["1"; "2"]; []; ["3"; "4"]] [("a", "text"); ("b", "text")] gappy_world
           eq_refl eq_refl eq_refl eq_refl eq_refl).
Defined.

(** C1 as stated fails: the source [x.csv] has three records after its
    header, the run returns, and the table holds two rows, those of the
    copy pandas wrote without the blank line. *)
Lemma csv_to_table_row_count_counterexample :
  fs gappy_world !! "x.csv" = Some (["a"; "b"] :: [["1"; "2"]; []; ["3"; "4"]])
  ∧ fst gappy_run = inr PyNone
  ∧ (rows <$> db (snd gappy_run) !! "s.x") = Some [["1"; "2"]; ["3"; "4"]]
  ∧ length [["1"; "2"]; ["3"; "4"]] ≠ length [["1"; "2"]; []; ["3"; "4"]].
Proof. vm_compute. repeat split; congruence. Qed.

(** The amended C2 at the missing path [/no/such/file.csv]. *)
Lemma main_missing_file_drops_then_reports_witness :
  fs missing_world !! file_name missing_args = None
  ∧ fst (main quiet missing_args missing_world) = inr tt
  ∧ new_output missing_world (snd (main quiet missing_args missing_world))
    = [loading_line missing_args; hint; done_line]
  ∧ new_events missing_world (snd (main quiet missing_args missing_world))
    = [EvConnect None; EvExecute (DropTableIfExists "public.sales") None;
       EvClose 0; EvDispose 0]
  ∧ db (snd (main quiet missing_args missing_world)) = delete "public.sales" (db missing_world).
Proof.
  split; [vm_compute; reflexivity |].
  apply (main_missing_file_drops_then_reports quiet missing_args missing_world);
    vm_compute; reflexivity.
Defined.

(** C2 as stated fails: for the missing path [/no/such/file.csv] the hint
    is printed, but [DROP TABLE IF EXISTS] was sent before the file was
    opened, and the table [public.sales] that existed is no longer there. *)
Lemma main_missing_file_counterexample :
  fs missing_world !! "/no/such/file.csv" = None
  ∧ db missing_world !! "public.sales" = Some stale_sales
  ∧ fst (main quiet missing_args missing_world) = inr tt
  ∧ hint ∈ new_output missing_world (snd (main quiet missing_args missing_world))
  ∧ EvExecute (DropTableIfExists "public.sales") None
    ∈ new_events missing_world (snd (main quiet missing_args missing_world))
  ∧ db (snd (main quiet missing_args missing_world)) !! "public.sales" = None.
Proof.
  repeat split; try (vm_compute; reflexivity).
  - vm_compute. set_solver.
  - vm_compute. set_solver.
Qed.

(** The amended C4 at [sales.csv]. *)
Lemma csv_to_table_prints_count_returns_None_witness :
  fst sales_run = inr PyNone
  ∧ ∃ tbl before,
      db (snd sales_run) !! qualified "public" "sales" = Some tbl
      ∧ new_output sales_world_connected (snd sales_run)
        = [rows_loaded_line (length (rows tbl))]
      ∧ new_events sales_world_connected (snd sales_run)
        = before ++ [EvExecute (SelectCount (qualified "public" "sales")) None; EvClose 0].
Proof.
  split; [vm_compute; reflexivity |].
  apply (csv_to_table_prints_count_returns_None quiet "sales" "public" "sales.csv" 0 false
           sales_world_connected (PyNone) (snd sales_run)).
  vm_compute. reflexivity.
Defined.

(** C4 as stated fails: the load of [sales.csv] leaves three rows in the
    table and prints the count, and the value handed back to the caller is
    [None], not the count. *)
Lemma csv_to_table_return_value_counterexample :
  (length <$> (rows <$> db (snd sales_run) !! "public.sales")) = Some 3
  ∧ fst sales_run = inr PyNone
  ∧ fst sales_run ≠ inr (PyInt 3).
Proof. vm_compute. repeat split; congruence. Qed.

(** C5, at the failing input: the server cannot be reached, so
    [engine.connect()] raises. [main] ends with [UnboundLocalError] raised
    by [conn.close()] in the [finally] block; the engine it created is
    still not disposed, and no [engine.dispose()] was ever called. *)
Theorem main_unreachable_server_leaks_engine :
  let out := main unreachable sales_args sales_world in
  fst out = inl UnboundLocalError
  ∧ engines (snd out) = [false]
  ∧ new_events sales_world (snd out) = [EvConnect (Some (DBAPIError OperationalError))].
Proof. vm_compute. auto. Qed.

(** C6 at [sales.csv], loaded twice over the stale table. *)
Lemma main_twice_same_end_state_witness :
  let w1 := snd (main quiet sales_args sales_world) in
  let w2 := snd (main quiet sales_args w1) in
  db w2 = db w1 ∧ new_output w1 w2 = new_output sales_world w1.
Proof.
  intros w1 w2.
  apply (main_twice_same_end_state quiet sales_args sales_world w1 w2);
    vm_compute; reflexivity.
Defined.

(** C7 at [sales.csv] followed by [returns.csv]. *)
Lemma main_second_file_replaces_witness :
  let w1 := snd (main quiet sales_args two_files_world) in
  let w2 := snd (main quiet returns_args w1) in
  is_Some (loaded_table quiet returns_csv)
  ∧ db w2 !! qualified (schema sales_args) (tablename sales_args)
    = loaded_table quiet returns_csv.
Proof.
  intros w1 w2.
  apply (main_second_file_replaces quiet sales_args returns_args two_files_world
           (fst (main quiet sales_args two_files_world)) w1 returns_csv w2);
    vm_compute; reflexivity.
Defined.

(** The second load in that scenario: two rows, none of the three of
    [sales.csv]. *)
Example second_load_table :
  loaded_table quiet returns_csv
  = Some (mkTable [("id", "text"); ("reason", "text")] [["7"; "damaged"]; ["8"; "late"]]).
Proof. vm_compute. reflexivity. Qed.

(** The amended C8 at the file with a blank first line. *)
Lemma csv_to_table_empty_header_creates_table_witness :
  fs blank_header_world !! "blank.csv" = Some ([] :: [])
  ∧ take 3 (new_events blank_header_world (snd blank_header_run))
    = [EvExecute (DropTableIfExists (qualified "s" "t")) None; EvOpen "blank.csv";
       EvExecute (CreateTable (qualified "s" "t") []) None].
Proof.
  split; [vm_compute; reflexivity |].
  apply (csv_to_table_empty_header_creates_table quiet "t" "s" "blank.csv" 0 false []
           blank_header_world); vm_compute; reflexivity.
Defined.

(** C8 as stated fails: on a file whose header has zero columns the run
    raises nothing; it sends [CREATE TABLE] with no column and returns,
    leaving a table without columns. *)
Lemma csv_to_table_empty_header_counterexample :
  (hd_error <$> fs blank_header_world !! "blank.csv") = Some (Some [])
  ∧ fst blank_header_run = inr PyNone
  ∧ EvExecute (CreateTable "s.t" []) None ∈ new_events blank_header_world (snd blank_header_run)
  ∧ db (snd blank_header_run) !! "s.t" = Some (mkTable [] []).
Proof.
  repeat split; try (vm_compute; reflexivity).
  vm_compute. set_solver.
Qed.

(** C9 at [sales.csv]. *)
Lemma csv_to_table_closes_connection_witness :
  conns (snd sales_run) !! 0 = Some ConnClosed
  ∧ ∀ s, conn_execute quiet 0 s (snd sales_run) = (inl StatementError, snd sales_run).
Proof.
  apply (csv_to_table_closes_connection quiet "sales" "public" "sales.csv" 0 false
           sales_world_connected PyNone (snd sales_run)).
  vm_compute. reflexivity.
Defined.

End LoaderProofs.

(** ** Properties of the statistics loop *)

Module PredictionsProofs.
Import Py Predictions.
Local Open Scope list_scope.
Local Open Scope py_scope.

Section Stats.
Variable top_models : list Project -> nat -> option string -> string -> list Model.
Variables split_col prefix data_subset : string.

Lemma index_state {A} (l : list A) (i : nat) (calls : list Call) :
  snd (index (W := list Call) l i calls) = calls.
Proof. unfold index. destruct (l !! i); reflexivity. Qed.

Lemma metric_in_force_cons metric p projects :
  metric_in_force metric (p :: projects) = metric_in_force (metric_at metric p) projects.
Proof.
  destruct metric as [m |]; cbn; [reflexivity |].
  destruct (project_metric p); reflexivity.
Qed.

Lemma metric_in_force_one metric p : metric_in_force metric [p] = metric_at metric p.
Proof.
  rewrite metric_in_force_cons. destruct (metric_at metric p); reflexivity.
Qed.

Lemma expected_calls_cons metric p projects :
  expected_calls data_subset metric (p :: projects)
  = call_for data_subset (metric_at metric p) p
    :: expected_calls data_subset (metric_at metric p) projects.
Proof.
  unfold expected_calls. rewrite imap_cons. cbn [take]. rewrite metric_in_force_one.
  f_equal. apply imap_ext. intros i q _. cbn. rewrite metric_in_force_cons. reflexivity.
Qed.

Lemma expected_calls_length metric projects :
  length (expected_calls data_subset metric projects) = length projects.
Proof. unfold expected_calls. apply length_imap. Qed.

(** With a metric in hand, every call carries it. *)
Lemma expected_calls_given m projects :
  expected_calls data_subset (Some m) projects = map (call_for data_subset (Some m)) projects.
Proof.
  induction projects as [| p rest IH]; [reflexivity |].
  rewrite expected_calls_cons. cbn [metric_at map]. rewrite IH. reflexivity.
Qed.

Lemma take_map {A B} (f : A → B) (l : list A) k : take k (map f l) = map f (take k l).
Proof.
  revert k. induction l as [| x l IH]; intros [| k]; cbn; try reflexivity.
  rewrite IH. reflexivity.
Qed.

(** One iteration either stops before the call, leaving the log as it
    was, or makes exactly the call for the value [metric] has after the
    test; when it completes, that value is the one carried to the next
    iteration. *)
Lemma loop_body_calls i p metric stats calls :
  let m := metric_at metric p in
  let out := loop_body top_models split_col prefix data_subset i p metric stats calls in
  (snd out = calls ∧ ∃ e, fst out = inl e)
  ∨ (snd out = calls ++ [call_for data_subset m p] ∧ ∀ st, fst out = inr st → fst st = m).
Proof.
  intros m out. subst out. unfold loop_body, bind, index, get_top_models_from_projects.
  change (match metric with None => project_metric p | Some m0 => Some m0 end) with m.
  repeat match goal with
  | |- context [match ?l !! ?k with _ => _ end] =>
      lazymatch l with
      | top_models _ _ _ _ => fail
      | _ => destruct (l !! k); cbn [ret raise fst snd];
             [| left; split; [reflexivity | eexists; reflexivity]]
      end
  end.
  right. cbn [fst snd].
  destruct (top_models [p] 1 m data_subset !! 0); cbn [ret raise fst snd].
  - split; [reflexivity |]. intros st [= <-]. reflexivity.
  - split; [reflexivity |]. intros st [=].
Qed.

(** The calls of the loop are the expected ones, over the projects
    reached. *)
Lemma stats_loop_calls projects : ∀ i metric stats calls,
  let out := stats_loop top_models split_col prefix data_subset i projects metric stats calls in
  ∃ k, k ≤ length projects
       ∧ snd out = calls ++ take k (expected_calls data_subset metric projects)
       ∧ ∀ st, fst out = inr st → k = length projects.
Proof.
  induction projects as [| p rest IH]; intros i metric stats calls out; subst out.
  - exists 0. cbn. rewrite app_nil_r. auto.
  - cbn [stats_loop]. unfold bind. rewrite expected_calls_cons.
    pose proof (loop_body_calls i p metric stats calls) as Hbody. cbn zeta in Hbody.
    destruct (loop_body top_models split_col prefix data_subset i p metric stats calls)
      as [[e | st] calls1] eqn:Hout; cbn [fst snd] in *.
    + destruct Hbody as [[-> _] | [-> _]].
      * exists 0. cbn. rewrite app_nil_r. split; [lia |]. split; [reflexivity |]. intros ? [=].
      * exists 1. cbn. split; [lia |]. split; [reflexivity |]. intros ? [=].
    + destruct Hbody as [[_ [e [=]]] | [-> Hst]].
      specialize (Hst st eq_refl). destruct st as [metric' stats']. cbn in Hst. subst metric'.
      cbn [fst snd].
      destruct (IH (S i) (metric_at metric p) stats'
                  (calls ++ [call_for data_subset (metric_at metric p) p]))
        as (k & Hk & Hcalls & Hdone).
      exists (S k). cbn [length take]. split; [lia |]. split.
      * rewrite Hcalls, <- app_assoc. reflexivity.
      * intros st Hst. f_equal. eauto.
Qed.

(** The same for the whole function: [stats[split_col]] and the
    assignment of [Series] make no call. *)
Lemma get_project_stats_calls projects n_models cluster_to_series_map metric calls :
  let out := get_project_stats top_models projects n_models cluster_to_series_map metric
               split_col prefix data_subset calls in
  ∃ k, k ≤ length projects
       ∧ snd out = calls ++ take k (expected_calls data_subset metric projects)
       ∧ ∀ stats, fst out = inr stats → k = length projects.
Proof.
  intros out. subst out. unfold get_project_stats, bind.
  destruct (stats_loop_calls projects 0 metric [] calls) as (k & Hk & Hcalls & Hdone).
  cbn zeta in Hcalls, Hdone.
  destruct (stats_loop top_models split_col prefix data_subset 0 projects metric [] calls)
    as [[e | st] calls1]; cbn [fst snd] in *.
  - exists k. split; [exact Hk |]. split; [exact Hcalls |]. intros ? [=].
  - exists k. split; [exact Hk |]. split.
    + unfold get_column. destruct (existsb _ _); cbn [ret raise snd]; exact Hcalls.
    + intros _ _. eauto.
Qed.

End Stats.

(** [py_split] on a project name of the expected shape. *)
Example py_split_project_name :
  py_split "TS_FD:1-7_FDW:28_Cluster-2" "_Cluster-" = ["TS_FD:1-7_FDW:28"; "2"]
  ∧ py_split "TS_FD:1-7_FDW:28_Cluster-2" "_FDW:" = ["TS_FD:1-7"; "28_Cluster-2"]
  ∧ py_split "aXXXb" "XX" = ["a"; "Xb"]
  ∧ py_split "" "XX" = [""].
Proof. vm_compute. auto. Qed.

(** The second project's own metric is MAE; with [metric=None] its models
    are ranked by RMSE, the metric of the first project. *)
Example second_project_ranked_by_first_metric :
  snd (get_project_stats sorted_by [cluster1; cluster2] 5 ∅ None "Cluster" "TS" "allBacktests" [])
  = [mkCall [cluster1] 1 (Some "RMSE") "allBacktests";
     mkCall [cluster2] 1 (Some "RMSE") "allBacktests"]
  ∧ project_metric cluster2 = Some "MAE".
Proof. vm_compute. auto. Qed.

End PredictionsProofs.

(** ** Further properties of the loader *)

Module LoaderExtra.
Import Py Loader LoaderMore LoaderProofs.
Local Open Scope py_scope.
#[local] Set Warnings "-clear-no-such-hyp".

Section Runs.
Variable E : Env.

(** X1: the names are pasted into the statements without quotes, so the
    statements are the five of [Stmt], on the one table, only for names
    that cannot be read as anything else. When the schema and the table
    name are plain identifiers in the form the server keeps, the header of
    the file is made of plain names and the path has no quote and no
    percent sign, [csv_to_table] leaves, whatever its outcome, every table
    but [schema.tablename] and every file but [file_name + "_tmp"] as they
    were; the source file itself is never modified. *)
Theorem csv_to_table_touches_one_table_one_file tablename schema file_name conn recursed w :
  safe_name schema = true →
  safe_name tablename = true →
  safe_path file_name = true →
  safe_header E w file_name = true →
  let q := qualified schema tablename in
  let tmp := file_name +:+ "_tmp" in
  let w' := snd (csv_to_table E tablename schema file_name conn recursed w) in
  delete q (db w') = delete q (db w)
  ∧ delete tmp (fs w') = delete tmp (fs w)
  ∧ fs w' !! file_name = fs w !! file_name.
Proof.
  intros _ _ _ _ q tmp w'. subst w'.
  destruct (csv_to_table E tablename schema file_name conn recursed w) as [r w'] eqn:H.
  pose proof (tmp_ne file_name) as Hne. fold tmp in Hne.
  unfold_run H. fold q tmp in H.
  repeat run_step.
  all: cbn [snd]; world_simpl.
  all: rewrite ?delete_insert_eq, ?delete_delete_eq, ?lookup_insert_ne by exact Hne.
  all: auto.
Qed.

(** X2: on a connection that is not open (closed by an earlier run, or
    never opened) [csv_to_table] raises at its first statement, with the
    [StatementError] SQLAlchemy makes of the closed connection, and changes
    nothing: no table is dropped, nothing is read. *)
Theorem csv_to_table_refused_on_closed_connection tablename schema file_name conn recursed w :
  conns w !! conn ≠ Some ConnOpen →
  csv_to_table E tablename schema file_name conn recursed w = (inl StatementError, w).
Proof.
  intros Hclosed. unfold csv_to_table, bind, conn_execute.
  destruct (conns w !! conn) as [[|]|]; congruence.
Qed.

(** X3: a run of [csv_to_table] that raises has printed nothing and has
    not closed the connection: [conn.close()] is reached only on the way
    to a normal return. *)
Theorem csv_to_table_raise_keeps_connection_and_output
    tablename schema file_name conn recursed w e w' :
  csv_to_table E tablename schema file_name conn recursed w = (inl e, w') →
  stdout w' = stdout w ∧ conns w' = conns w ∧ engines w' = engines w.
Proof.
  intros H. unfold_run H.
  repeat run_step.
  all: world_simpl; auto.
Qed.

(** X4: when the retry fails on the data (pandas cannot rewrite the file,
    or the second [COPY] raises a data error too), the exception leaves
    [csv_to_table] with the table created from the header, with the
    columns the server read off it, and empty: the rows of an earlier load
    are gone and none of the file came in. *)
Theorem csv_to_table_failed_retry_leaves_empty_table
    tablename schema file_name conn recursed w e w' :
  csv_to_table E tablename schema file_name conn recursed w = (inl e, w') →
  e = PandasError ∨ e = DataError →
  ∃ header data cols,
    fs w !! file_name = Some (header :: data)
    ∧ read_columns E (text_columns header) = Some cols
    ∧ db w' !! qualified schema tablename = Some (mkTable cols []).
Proof.
  intros H He. unfold_run H.
  repeat run_step.
  all: try (destruct He; discriminate).
  all: world_simpl; rewrite ?lookup_insert_eq; eauto 10.
Qed.

(** X5: an exception that leaves [main] is never [FileNotFoundError], and
    a run of [main] that raises has printed the loading line only: no
    count, no hint, no "Done!". *)
Theorem main_raise_is_not_FileNotFoundError a w e w' :
  main E a w = (inl e, w') →
  e ≠ FileNotFoundError ∧ new_output w w' = [loading_line a].
Proof.
  intros H.
  unfold main, bind, create_engine, print, main_try, engine_connect in H.
  world_simpl.
  destruct (fault_at E (clock w)) eqn:Hfault.
  { unfold try_finally, try_except, main_finally, raise in H.
    destruct (decide (DBAPIError d = FileNotFoundError)); [discriminate |].
    injection H as <- <-. split; [discriminate |].
    unfold new_output. world_simpl. apply drop_app_length. }
  match type of H with
  | context [csv_to_table E ?t ?s ?f ?c ?r ?w0] =>
      destruct (csv_to_table E t s f c r w0) as [[e0 | v] w2] eqn:Hrun
  end.
  - apply csv_to_table_raise_keeps_connection_and_output in Hrun as (Hout & _ & _).
    world_simpl.
    unfold try_finally, try_except, main_finally, bind, conn_close, engine_dispose,
      print, ret in H.
    destruct (decide (e0 = FileNotFoundError)) as [-> | Hne]; [discriminate H |].
    injection H as <- <-. split; [exact Hne |].
    unfold new_output. world_simpl. rewrite Hout. apply drop_app_length.
  - unfold try_finally, try_except, main_finally, bind, conn_close, engine_dispose,
      print, ret in H.
    discriminate H.
Qed.

(** X6: on an empty file, with the connection acquired and the [DROP]
    accepted, [main] ends with [StopIteration] from [next]: the table was
    dropped and not created again, the connection was closed and the
    engine disposed, and only the loading line was printed. *)
Theorem main_empty_file_stops_after_drop a w :
  fs w !! file_name a = Some [] →
  fault_at E (clock w) = None →
  fault_at E (S (clock w)) = None →
  let out := main E a w in
  let q := qualified (schema a) (tablename a) in
  fst out = inl StopIteration
  ∧ db (snd out) = delete q (db w)
  ∧ new_events w (snd out)
    = [EvConnect None; EvExecute (DropTableIfExists q) None; EvOpen (file_name a);
       EvClose (length (conns w)); EvDispose (length (engines w))]
  ∧ new_output w (snd out) = [loading_line a].
Proof.
  intros Hfile Hconnect Hdrop out q. subst out.
  unfold main, bind, create_engine, print, main_try, engine_connect.
  world_simpl. rewrite Hconnect.
  unfold csv_to_table, bind, conn_execute, read_header. world_simpl.
  rewrite list_lookup_middle by reflexivity. rewrite Hdrop.
  cbn [run_stmt]. world_simpl. rewrite Hfile.
  unfold try_finally, try_except, main_finally, bind, conn_close, engine_dispose, print, ret.
  destruct (decide (StopIteration = FileNotFoundError)); [discriminate |].
  cbn [fst snd]. unfold new_output, new_events. world_simpl.
  rewrite <- !app_assoc, !drop_app_length. auto.
Qed.

End Runs.

(** X1 at [sales.csv], loaded into [public.sales]. *)
Lemma csv_to_table_touches_one_table_one_file_witness :
  safe_name "public" = true ∧ safe_name "sales" = true ∧ safe_path "sales.csv" = true
  ∧ safe_header quiet sales_world_connected "sales.csv" = true
  ∧ delete "public.sales" (db (snd sales_run)) = delete "public.sales" (db sales_world_connected)
  ∧ delete "sales.csv_tmp" (fs (snd sales_run)) = delete "sales.csv_tmp" (fs sales_world_connected)
  ∧ fs (snd sales_run) !! "sales.csv" = fs sales_world_connected !! "sales.csv".
Proof.
  do 4 (split; [vm_compute; reflexivity |]).
  apply (csv_to_table_touches_one_table_one_file quiet "sales" "public" "sales.csv" 0 false
           sales_world_connected); vm_compute; reflexivity.
Defined.

Lemma csv_to_table_refused_on_closed_connection_witness :
  csv_to_table quiet "sales" "public" "sales.csv" 0 false (snd sales_run)
  = (inl StatementError, snd sales_run).
Proof.
  apply (csv_to_table_refused_on_closed_connection quiet "sales" "public" "sales.csv" 0 false
           (snd sales_run)).
  vm_compute. discriminate.
Defined.

Lemma csv_to_table_raise_keeps_connection_and_output_witness :
  let w' := snd (csv_to_table quiet "sales" "public" "/no/such/file.csv" 0 false
                   missing_world_connected) in
  stdout w' = stdout missing_world_connected
  ∧ conns w' = conns missing_world_connected
  ∧ engines w' = engines missing_world_connected.
Proof.
  intros w'.
  apply (csv_to_table_raise_keeps_connection_and_output quiet "sales" "public"
           "/no/such/file.csv" 0 false missing_world_connected FileNotFoundError w').
  vm_compute. reflexivity.
Defined.

Lemma csv_to_table_failed_retry_leaves_empty_table_witness :
  let w' := snd (csv_to_table verbatim "x" "s" "x.csv" 0 false gappy_stale_world) in
  ∃ header data cols,
    fs gappy_stale_world !! "x.csv" = Some (header :: data)
    ∧ read_columns verbatim (text_columns header) = Some cols
    ∧ db w' !! qualified "s" "x" = Some (mkTable cols []).
Proof.
  intros w'.
  apply (csv_to_table_failed_retry_leaves_empty_table verbatim "x" "s" "x.csv" 0 false
           gappy_stale_world DataError w').
  - vm_compute. reflexivity.
  - right. reflexivity.
Defined.

Lemma main_raise_is_not_FileNotFoundError_witness :
  let w' := snd (main quiet sales_args empty_file_world) in
  StopIteration ≠ FileNotFoundError
  ∧ new_output empty_file_world w' = [loading_line sales_args].
Proof.
  intros w'.
  apply (main_raise_is_not_FileNotFoundError quiet sales_args empty_file_world StopIteration w').
  vm_compute. reflexivity.
Defined.

Lemma main_empty_file_stops_after_drop_witness :
  let out := main quiet sales_args empty_file_world in
  fst out = inl StopIteration
  ∧ db (snd out) = delete "public.sales" (db empty_file_world)
  ∧ new_events empty_file_world (snd out)
    = [EvConnect None; EvExecute (DropTableIfExists "public.sales") None; EvOpen "sales.csv";
       EvClose 0; EvDispose 0]
  ∧ new_output empty_file_world (snd out) = [loading_line sales_args].
Proof.
  apply (main_empty_file_stops_after_drop quiet sales_args empty_file_world);
    vm_compute; reflexivity.
Defined.

(** X7, the release by the [finally] block once the connection is
    acquired, at [sales.csv]. *)
Lemma main_releases_when_connected_witness :
  let w' := snd (main quiet sales_args sales_world) in
  conns w' !! 0 = Some ConnClosed ∧ engines w' !! 0 = Some true.
Proof.
  apply (main_releases_when_connected quiet sales_args sales_world).
  vm_compute. reflexivity.
Defined.

End LoaderExtra.


(** ** Properties of the path functions and of [get_args] *)

Module GetArgsProofs.
Import Py Loader Text GetArgs.

Lemma app_cons a s t : String a s +:+ t = String a (s +:+ t).
Proof. reflexivity. Qed.

Lemma app_empty_r s : s +:+ "" = s.
Proof. induction s as [| a s IH]; [reflexivity |]. rewrite app_cons, IH. reflexivity. Qed.

Lemma str_app_assoc s t u : (s +:+ t) +:+ u = s +:+ (t +:+ u).
Proof. induction s as [| a s IH]; [reflexivity |]. rewrite !app_cons, IH. reflexivity. Qed.

Lemma str_length_app s t : String.length (s +:+ t) = String.length s + String.length t.
Proof. induction s as [| a s IH]; [reflexivity |]. rewrite app_cons. cbn. rewrite IH. reflexivity. Qed.

Lemma str_take_drop n s : str_take n s +:+ str_drop n s = s.
Proof.
  revert s. induction n as [| n IH]; intros [| a s]; try reflexivity.
  cbn [str_take str_drop]. rewrite app_cons, IH. reflexivity.
Qed.

Lemma str_drop_app pre t : str_drop (String.length pre) (pre +:+ t) = t.
Proof. induction pre as [| a pre IH]; [destruct t; reflexivity |]. rewrite app_cons. exact IH. Qed.

Lemma str_take_app pre t : str_take (String.length pre) (pre +:+ t) = pre.
Proof.
  induction pre as [| a pre IH]; [destruct t; reflexivity |].
  rewrite app_cons. cbn [String.length str_take]. rewrite IH. reflexivity.
Qed.

Lemma str_drop_add a b s : str_drop (a + b) s = str_drop b (str_drop a s).
Proof.
  revert s. induction a as [| a IH]; intros s; [reflexivity |].
  destruct s as [| c s]; cbn [Nat.add str_drop].
  - destruct b; reflexivity.
  - apply IH.
Qed.

Lemma has_char_app c s t : has_char c (s +:+ t) = has_char c s || has_char c t.
Proof.
  induction s as [| a s IH]; [reflexivity |].
  rewrite app_cons. cbn [has_char]. rewrite IH, orb_assoc. reflexivity.
Qed.

Lemma has_char_drop c n s : has_char c s = false → has_char c (str_drop n s) = false.
Proof.
  revert s. induction n as [| n IH]; intros [| a s] H; try exact H.
  cbn [str_drop]. apply IH. cbn [has_char] in H. apply orb_false_iff in H. tauto.
Qed.

Lemma has_char_take c n s : has_char c s = false → has_char c (str_take n s) = false.
Proof.
  revert s. induction n as [| n IH]; intros [| a s] H; try reflexivity.
  cbn [str_take has_char] in *. apply orb_false_iff in H as [-> H]. cbn. auto.
Qed.

(** [rfind] finds nothing exactly when the character does not occur. *)
Lemma rfind_None c s : rfind c s = None ↔ has_char c s = false.
Proof.
  induction s as [| a s IH]; [tauto |].
  cbn [rfind has_char]. destruct (rfind c s) as [i |].
  - split; [discriminate |]. intros H. apply orb_false_iff in H as [_ H].
    apply IH in H. discriminate.
  - destruct (Ascii.eqb a c); cbn; [split; discriminate |]. tauto.
Qed.

(** What [rfind] finds is an occurrence with none after it. *)
Lemma rfind_Some c s i :
  rfind c s = Some i →
  ∃ pre post, s = pre +:+ String c post ∧ String.length pre = i ∧ has_char c post = false.
Proof.
  revert i. induction s as [| a s IH]; intros i; [discriminate |].
  cbn [rfind]. destruct (rfind c s) as [j |] eqn:Hj.
  - intros [= <-]. destruct (IH j eq_refl) as (pre & post & -> & <- & Hpost).
    exists (String a pre), post. auto.
  - destruct (Ascii.eqb a c) eqn:Hac; [| discriminate].
    intros [= <-]. apply Ascii.eqb_eq in Hac as ->.
    exists "", s. repeat split. apply rfind_None, Hj.
Qed.

(** The last occurrence in a string that ends with [c] and a tail free of [c]. *)
Lemma rfind_app c pre post :
  has_char c post = false → rfind c (pre +:+ String c post) = Some (String.length pre).
Proof.
  intros Hpost. induction pre as [| a pre IH].
  - change ("" +:+ String c post) with (String c post). cbn [rfind].
    apply rfind_None in Hpost. rewrite Hpost, Ascii.eqb_refl. reflexivity.
  - rewrite app_cons. cbn [rfind]. rewrite IH. reflexivity.
Qed.

Lemma has_char_drop_after_last c s : has_char c (str_drop (after_last c s) s) = false.
Proof.
  unfold after_last. destruct (rfind c s) as [i |] eqn:Hr.
  - apply rfind_Some in Hr as (pre & post & -> & <- & Hpost).
    change (S (String.length pre)) with (String.length (String c "") + String.length pre).
    rewrite Nat.add_comm, str_drop_add, str_drop_app. exact Hpost.
  - apply rfind_None, Hr.
Qed.

(** X8: [os.path.basename]: the path is a directory part, empty or ending
    with a slash, followed by the base name, and the base name has no slash. *)
Theorem basename_decomposes p :
  ∃ dir, p = dir +:+ basename p
         ∧ (dir = "" ∨ ∃ d, dir = d +:+ "/")
         ∧ has_char "/" (basename p) = false.
Proof.
  unfold basename. exists (str_take (after_last "/" p) p).
  split; [symmetry; apply str_take_drop |].
  split; [| apply has_char_drop_after_last].
  unfold after_last. destruct (rfind "/" p) as [i |] eqn:Hr; [right | left; reflexivity].
  apply rfind_Some in Hr as (pre & post & -> & <- & _).
  exists pre.
  change (pre +:+ String "/" post) with (pre +:+ (String "/" "" +:+ post)).
  rewrite <- str_app_assoc.
  replace (S (String.length pre)) with (String.length (pre +:+ "/")).
  - apply str_take_app.
  - rewrite str_length_app. cbn. lia.
Qed.

(** X9: [os.path.splitext]: root and extension put together give the path
    back, and the extension is empty or a dot followed by characters among
    which there is neither a dot nor a slash. *)
Theorem splitext_round_trip p :
  fst (splitext p) +:+ snd (splitext p) = p
  ∧ (snd (splitext p) = ""
     ∨ ∃ e, snd (splitext p) = "." +:+ e
            ∧ has_char "." e = false ∧ has_char "/" e = false).
Proof.
  unfold splitext.
  destruct (rfind "." p) as [d |] eqn:Hdot; cbn [fst snd].
  2: { split; [apply app_empty_r | left; reflexivity]. }
  destruct ((after_last "/" p <=? d) && _) eqn:Hcond; cbn [fst snd].
  2: { split; [apply app_empty_r | left; reflexivity]. }
  split; [apply str_take_drop |]. right.
  apply andb_true_iff in Hcond as [Hle _]. apply Nat.leb_le in Hle.
  pose proof (has_char_drop_after_last "/" p) as Hslash.
  apply rfind_Some in Hdot as (pre & post & -> & <- & Hpost).
  rewrite str_drop_app. exists post. split; [reflexivity |]. split; [exact Hpost |].
  apply (has_char_drop "/" (S (String.length pre) - after_last "/" (pre +:+ String "." post)))
    in Hslash.
  rewrite <- str_drop_add in Hslash.
  replace (_ + _) with (String.length (String "." "") + String.length pre) in Hslash by (cbn; lia).
  rewrite Nat.add_comm, str_drop_add, str_drop_app in Hslash. exact Hslash.
Qed.

Lemma has_char_replace_old old new s :
  old ≠ new → has_char old (replace_char old new s) = false.
Proof.
  intros Hne. induction s as [| a s IH]; [reflexivity |].
  cbn [replace_char has_char]. rewrite IH, orb_false_r.
  destruct (Ascii.eqb a old) eqn:Ha.
  - apply Ascii.eqb_neq. congruence.
  - exact Ha.
Qed.

Lemma has_char_replace_other c old new s :
  c ≠ new → has_char c s = false → has_char c (replace_char old new s) = false.
Proof.
  intros Hne. induction s as [| a s IH]; [reflexivity |].
  cbn [replace_char has_char]. intros H. apply orb_false_iff in H as [Ha Hs].
  rewrite (IH Hs), orb_false_r.
  destruct (Ascii.eqb a old); [| exact Ha].
  apply Ascii.eqb_neq. congruence.
Qed.

Lemma splitext_root_no_slash p :
  has_char "/" p = false → has_char "/" (fst (splitext p)) = false.
Proof.
  intros H. unfold splitext.
  destruct (rfind "." p) as [d |]; [| exact H].
  destruct (_ && _); [| exact H]. apply has_char_take, H.
Qed.

(** X10: the table name [get_args] proposes, and uses when the operator just
    hits Enter, has no slash, no hyphen and no space. *)
Theorem get_args_default_tablename_clean default_database default_schema t :
  typed_table t = "" →
  let name := tablename (fst (get_args default_database default_schema t)) in
  has_char "/" name = false ∧ has_char "-" name = false ∧ has_char " " name = false.
Proof.
  intros Hempty name. subst name. unfold get_args. cbn [fst tablename].
  rewrite Hempty. cbn [or_default]. unfold default_tablename.
  pose proof (splitext_root_no_slash (basename (typed_file t))) as Hroot.
  unfold basename in Hroot at 1. specialize (Hroot (has_char_drop_after_last "/" _)).
  split; [| split].
  - apply has_char_replace_other; [discriminate |].
    apply has_char_replace_other; [discriminate | exact Hroot].
  - apply has_char_replace_other; [discriminate |].
    apply has_char_replace_old. discriminate.
  - apply has_char_replace_old. discriminate.
Qed.

Lemma basename_of_dir_slash dir rest :
  has_char "/" rest = false → basename (dir +:+ "/" +:+ rest) = rest.
Proof.
  intros Hrest. unfold basename, after_last.
  change (dir +:+ "/" +:+ rest) with (dir +:+ String "/" rest).
  rewrite (rfind_app "/" dir rest Hrest).
  change (dir +:+ String "/" rest) with (dir +:+ ("/" +:+ rest)).
  rewrite <- str_app_assoc.
  replace (S (String.length dir)) with (String.length (dir +:+ "/"))
    by (rewrite str_length_app; cbn; lia).
  apply str_drop_app.
Qed.

Lemma splitext_name_dot_ext name ext :
  name ≠ "" →
  has_char "/" name = false → has_char "." name = false →
  has_char "/" ext = false → has_char "." ext = false →
  splitext (name +:+ "." +:+ ext) = (name, "." +:+ ext).
Proof.
  intros Hname Hns Hnd Hes Hed. unfold splitext, after_last.
  change (name +:+ "." +:+ ext) with (name +:+ String "." ext).
  assert (rfind "/" (name +:+ String "." ext) = None) as ->.
  { apply rfind_None. rewrite has_char_app. cbn [has_char]. rewrite Hns, Hes. reflexivity. }
  rewrite (rfind_app "." name ext Hed). cbn [Nat.leb andb str_drop]. rewrite Nat.sub_0_r.
  rewrite str_take_app, str_drop_app.
  destruct name as [| a name]; [congruence |].
  rewrite app_cons. cbn [String.length non_dot_before].
  cbn [has_char] in Hnd. apply orb_false_iff in Hnd as [-> _]. reflexivity.
Qed.

(** X11: for a path [dir/name.ext], where [name] is not empty and neither
    [name] nor [ext] has a slash or a dot, the proposed table name is
    [name] with its hyphens and spaces turned into underscores. *)
Theorem default_tablename_of_plain_path dir name ext :
  name ≠ "" →
  has_char "/" name = false → has_char "." name = false →
  has_char "/" ext = false → has_char "." ext = false →
  default_tablename (dir +:+ "/" +:+ name +:+ "." +:+ ext)
  = replace_char " " "_" (replace_char "-" "_" name).
Proof.
  intros Hname Hns Hnd Hes Hed. unfold default_tablename.
  rewrite basename_of_dir_slash.
  - rewrite splitext_name_dot_ext by assumption. reflexivity.
  - change (name +:+ "." +:+ ext) with (name +:+ String "." ext).
    rewrite has_char_app. cbn [has_char]. rewrite Hns, Hes. reflexivity.
Qed.

Lemma get_args_default_tablename_clean_witness :
  let name := tablename (fst (get_args "warehouse" "public"
                (mkTyped "/data/in/my file-v1.csv" "" "" "" "secret"))) in
  has_char "/" name = false ∧ has_char "-" name = false ∧ has_char " " name = false.
Proof.
  apply (get_args_default_tablename_clean "warehouse" "public"
           (mkTyped "/data/in/my file-v1.csv" "" "" "" "secret")).
  reflexivity.
Defined.

Lemma default_tablename_of_plain_path_witness :
  default_tablename ("/data/in" +:+ "/" +:+ "my file-v1" +:+ "." +:+ "csv")
  = replace_char " " "_" (replace_char "-" "_" "my file-v1").
Proof.
  apply (default_tablename_of_plain_path "/data/in" "my file-v1" "csv");
    [discriminate | reflexivity ..].
Defined.

(** A dot inside the name stays in the proposed table name. *)
Example default_tablename_keeps_inner_dot :
  default_tablename "/data/in/my file-v1.2.csv" = "my_file_v1.2"
  ∧ splitext ".cshrc" = (".cshrc", "")
  ∧ basename "a/b/" = "".
Proof. vm_compute. auto. Qed.
End GetArgsProofs.


(** ** Properties of [str.split] and of the project names *)

Module PredictionsExtra.
Import Py Predictions Text GetArgsProofs.
Local Open Scope py_scope.

(** *** [str.split] *)

Lemma prefix_app sep s : String.prefix sep s = true → ∃ rest, s = sep +:+ rest.
Proof.
  revert s. induction sep as [| a sep IH]; intros s H.
  - exists s. reflexivity.
  - destruct s as [| b s]; [discriminate |]. cbn [String.prefix] in H.
    destruct (ascii_dec a b) as [-> |]; [| discriminate].
    destruct (IH s H) as [rest ->]. exists rest. reflexivity.
Qed.

Lemma split_go_nonempty sep skip cur s : split_go sep skip cur s ≠ [].
Proof.
  revert skip cur. induction s as [| c s IH]; intros skip cur; [discriminate |].
  cbn [split_go]. destruct skip; [| apply IH].
  destruct (String.prefix sep (String c s)); [discriminate | apply IH].
Qed.

Lemma py_join_cons sep x l : l ≠ [] → py_join sep (x :: l) = x +:+ sep +:+ py_join sep l.
Proof. destruct l; [congruence | reflexivity]. Qed.

Lemma split_go_join sep s : sep ≠ "" → ∀ skip cur,
  py_join sep (split_go sep skip cur s) = cur +:+ str_drop skip s.
Proof.
  intros Hsep. induction s as [| c s IH]; intros skip cur.
  - destruct skip; cbn [split_go py_join str_drop]; rewrite app_empty_r; reflexivity.
  - cbn [split_go]. destruct skip as [| k]; [| apply IH].
    destruct (String.prefix sep (String c s)) eqn:Hp.
    + rewrite py_join_cons by apply split_go_nonempty. rewrite IH.
      apply prefix_app in Hp as [rest Hrest].
      destruct sep as [| a sep]; [congruence |].
      rewrite app_cons in Hrest. injection Hrest as <- ->.
      cbn [String.length Nat.sub]. rewrite Nat.sub_0_r, str_drop_app.
      reflexivity.
    + rewrite IH. cbn [str_drop]. rewrite str_app_assoc. reflexivity.
Qed.

(** X12: joining the pieces of a split with the separator gives the string
    back, for any separator that is not empty. *)
Theorem py_split_join s sep : sep ≠ "" → py_join sep (py_split s sep) = s.
Proof.
  intros Hsep. unfold py_split. rewrite split_go_join by exact Hsep. reflexivity.
Qed.

Lemma split_go_absent sep s : occurs sep s = false → ∀ cur, split_go sep 0 cur s = [cur +:+ s].
Proof.
  induction s as [| c s IH]; intros H cur.
  - cbn. rewrite app_empty_r. reflexivity.
  - cbn [occurs] in H. apply orb_false_iff in H as [Hp Hs].
    cbn [split_go]. rewrite Hp, (IH Hs), str_app_assoc. reflexivity.
Qed.

(** A string without the separator is the one piece of its split. *)
Lemma py_split_absent s sep : occurs sep s = false → py_split s sep = [s].
Proof. intros H. unfold py_split. rewrite split_go_absent by exact H. reflexivity. Qed.

Section Stats.
Variable top_models : list Project -> nat -> option string -> string -> list Model.
Variables split_col prefix data_subset : string.

Lemma loop_body_without_marker i p metric stats calls :
  occurs ("_" +:+ split_col +:+ "-") (project_name p) = false →
  loop_body top_models split_col prefix data_subset i p metric stats calls
  = (inl IndexError, calls).
Proof.
  intros H. unfold loop_body, bind, index.
  rewrite (py_split_absent _ _ H). reflexivity.
Qed.

Lemma stats_loop_without_marker projects : ∀ i metric stats calls p,
  p ∈ projects →
  occurs ("_" +:+ split_col +:+ "-") (project_name p) = false →
  ∃ e, fst (stats_loop top_models split_col prefix data_subset i projects metric stats calls)
       = inl e.
Proof.
  induction projects as [| p0 rest IH]; intros i metric stats calls p Hin Hp.
  - inversion Hin.
  - cbn [stats_loop]. unfold bind.
    destruct (loop_body top_models split_col prefix data_subset i p0 metric stats calls)
      as [[e | st] calls1] eqn:Hbody; cbn [fst]; [eauto |].
    apply elem_of_cons in Hin as [-> | Hin].
    + rewrite loop_body_without_marker in Hbody by exact Hp. discriminate.
    + eapply IH; eauto.
Qed.

(** X13: a project whose name lacks the marker [_<split_col>-] makes
    [get_project_stats] raise: no frame is returned for a list that holds
    such a project; when it is the first project, the exception is
    [IndexError] and no call to the leaderboard was made. *)
Theorem get_project_stats_needs_marker
    projects n_models cluster_to_series_map metric calls p :
  p ∈ projects →
  occurs ("_" +:+ split_col +:+ "-") (project_name p) = false →
  let out := get_project_stats top_models projects n_models cluster_to_series_map metric
               split_col prefix data_subset calls in
  (∃ e, fst out = inl e)
  ∧ (projects !! 0 = Some p → out = (inl IndexError, calls)).
Proof.
  intros Hin Hp out. subst out. split.
  - unfold get_project_stats. unfold bind at 1.
    destruct (stats_loop_without_marker projects 0 metric [] calls p Hin Hp) as [e He].
    destruct (stats_loop top_models split_col prefix data_subset 0 projects metric [] calls)
      as [[e' | st] calls1]; cbn [fst] in *; [eauto | discriminate].
  - destruct projects as [| p0 rest]; [discriminate |]. intros [= ->].
    unfold get_project_stats. cbn [stats_loop]. unfold bind at 1 2.
    rewrite loop_body_without_marker by exact Hp. reflexivity.
Qed.

(** With no project at all the frame has no column, and the function
    raises [KeyError] on [stats[split_col]] instead of returning an empty
    frame. *)
Lemma get_project_stats_no_project n_models cluster_to_series_map metric calls :
  get_project_stats top_models [] n_models cluster_to_series_map metric
    split_col prefix data_subset calls
  = (inl KeyError, calls).
Proof. reflexivity. Qed.

End Stats.
End PredictionsExtra.


(** ** The rows of the statistics frame *)

Module StatsRows.
Import Py Predictions Text GetArgsProofs PredictionsProofs PredictionsExtra StatsVocabulary.
Local Open Scope py_scope.

Lemma loc_set_fresh i col v (stats : DataFrame) :
  length stats = i → loc_set i col v stats = stats ++ [{[ col := v ]}].
Proof.
  intros <-. unfold loc_set. rewrite lookup_ge_None_2 by lia. reflexivity.
Qed.

Lemma loc_set_last i col v (stats : DataFrame) row :
  length stats = i → loc_set i col v (stats ++ [row]) = stats ++ [<[col := v]> row].
Proof.
  intros <-. unfold loc_set. rewrite list_lookup_middle by reflexivity.
  replace (length stats) with (length stats + 0) at 1 by lia.
  rewrite insert_app_r. reflexivity.
Qed.

Lemma lookup_map {A B} (f : A → B) (l : list A) i : map f l !! i = f <$> l !! i.
Proof.
  revert i. induction l as [| x l IH]; intros [| i]; try reflexivity. apply IH.
Qed.

Lemma set_column_from_self col (f : gmap string Cell → Cell) (stats : DataFrame) :
  set_column col (map f stats) stats = map (λ row, <[col := f row]> row) stats.
Proof.
  unfold set_column. induction stats as [| row stats IH]; [reflexivity |].
  cbn [map zip_with]. rewrite IH. reflexivity.
Qed.

Section Stats.
Variable top_models : list Project -> nat -> option string -> string -> list Model.
Variables split_col prefix data_subset : string.

(** An iteration that completes has appended one row, built from the
    fields of the name and from the first model of the leaderboard. *)
Lemma loop_body_row i p metric stats calls metric' stats' calls' :
  length stats = i →
  loop_body top_models split_col prefix data_subset i p metric stats calls
  = (inr (metric', stats'), calls') →
  let m := metric_at metric p in
  metric' = m
  ∧ ∃ cluster fd fdw mdl,
      parse_name split_col prefix (project_name p) = Some (cluster, fd, fdw)
      ∧ top_models [p] 1 m data_subset !! 0 = Some mdl
      ∧ stats' = stats ++ [stats_row split_col p cluster fd fdw mdl].
Proof.
  intros Hlen H m. unfold loop_body, bind, index, get_top_models_from_projects in H.
  change (match metric with None => project_metric p | Some m0 => Some m0 end) with m in H.
  unfold parse_name.
  repeat match type of H with
  | context [match ?l !! ?k with _ => _ end] =>
      let Hl := fresh "Hl" in
      destruct (l !! k) eqn:Hl; cbn [ret raise fst snd] in H; [| discriminate H]
  end.
  injection H as <- <- <-. split; [reflexivity |].
  do 4 eexists.
  split.
  { cbn [mbind option_bind]. rewrite Hl1. cbn [mbind option_bind]. rewrite Hl3.
    reflexivity. }
  split; [reflexivity |].
  rewrite (loc_set_fresh i "Project_Name" _ stats Hlen).
  rewrite !(λ col v row, loc_set_last i col v stats row Hlen). reflexivity.
Qed.

(** Conversely, an iteration on a name that can be read, with a
    leaderboard that is not empty, completes. *)
Lemma loop_body_progress i p metric stats calls cluster fd fdw mdl :
  length stats = i →
  parse_name split_col prefix (project_name p) = Some (cluster, fd, fdw) →
  top_models [p] 1 (metric_at metric p) data_subset !! 0 = Some mdl →
  loop_body top_models split_col prefix data_subset i p metric stats calls
  = (inr (metric_at metric p, stats ++ [stats_row split_col p cluster fd fdw mdl]),
     calls ++ [call_for data_subset (metric_at metric p) p]).
Proof.
  intros Hlen Hparse Hmdl. unfold parse_name in Hparse.
  unfold loop_body, bind, index, get_top_models_from_projects.
  change (match metric with None => project_metric p | Some m0 => Some m0 end)
    with (metric_at metric p).
  repeat match type of Hparse with
  | context [mbind _ (?l !! ?k)] =>
      destruct (l !! k) eqn:?; cbn [mbind option_bind] in Hparse; [| discriminate Hparse]
  end.
  injection Hparse as -> -> ->.
  repeat (cbn [ret raise fst snd];
          match goal with
          | Hl : ?l !! ?k = Some _ |- context [?l !! ?k] => rewrite Hl
          end).
  cbn [ret raise fst snd].
  rewrite (loc_set_fresh i "Project_Name" _ stats Hlen).
  rewrite !(λ col v row, loc_set_last i col v stats row Hlen). reflexivity.
Qed.

Lemma stats_row_has_split_col p cluster fd fdw mdl :
  is_Some (stats_row split_col p cluster fd fdw mdl !! split_col).
Proof.
  unfold stats_row.
  do 4 (apply lookup_insert_is_Some'; right).
  apply lookup_insert_is_Some'. left. reflexivity.
Qed.

Lemma stats_loop_rows projects : ∀ i metric stats calls metric' stats' calls',
  length stats = i →
  stats_loop top_models split_col prefix data_subset i projects metric stats calls
  = (inr (metric', stats'), calls') →
  ∃ rows,
    stats' = stats ++ rows
    ∧ length rows = length projects
    ∧ ∀ j p, projects !! j = Some p →
        ∃ cluster fd fdw mdl,
          parse_name split_col prefix (project_name p) = Some (cluster, fd, fdw)
          ∧ top_models [p] 1 (metric_in_force metric (take (S j) projects)) data_subset !! 0
            = Some mdl
          ∧ rows !! j = Some (stats_row split_col p cluster fd fdw mdl).
Proof.
  induction projects as [| p rest IH]; intros i metric stats calls metric' stats' calls' Hlen H.
  - cbn in H. injection H as <- <- <-. exists []. rewrite app_nil_r.
    split; [reflexivity |]. split; [reflexivity |]. intros j p Hj. discriminate Hj.
  - cbn [stats_loop] in H. unfold bind in H.
    destruct (loop_body top_models split_col prefix data_subset i p metric stats calls)
      as [[e | [metric1 stats1]] calls1] eqn:Hbody; [discriminate H |].
    apply (loop_body_row i) in Hbody as (-> & cluster & fd & fdw & mdl & Hparse & Hmdl & ->);
      [| exact Hlen].
    cbn [fst snd] in H.
    apply IH in H as (rows & -> & Hlenr & Hrows); [| rewrite length_app; cbn; lia].
    eexists (_ :: rows). split; [rewrite <- app_assoc; reflexivity |].
    split; [cbn [length]; rewrite Hlenr; reflexivity |].
    intros [| j] q Hq.
    + injection Hq as <-. exists cluster, fd, fdw, mdl.
      cbn [take]. rewrite metric_in_force_one. auto.
    + apply Hrows in Hq as (cl' & fd' & fdw' & mdl' & Hparse' & Hmdl' & Hrow').
      exists cl', fd', fdw', mdl'.
      change (take (S (S j)) (p :: rest)) with (p :: take (S j) rest).
      rewrite metric_in_force_cons. auto.
Qed.

(** When every name can be read and no leaderboard is empty, the loop
    goes over all the projects. *)
Lemma stats_loop_progress projects : ∀ i metric stats calls,
  length stats = i →
  (∀ j p, projects !! j = Some p →
     is_Some (parse_name split_col prefix (project_name p))
     ∧ top_models [p] 1 (metric_in_force metric (take (S j) projects)) data_subset ≠ []) →
  ∃ rows,
    stats_loop top_models split_col prefix data_subset i projects metric stats calls
    = (inr (metric_in_force metric projects, stats ++ rows),
       calls ++ expected_calls data_subset metric projects)
    ∧ length rows = length projects
    ∧ Forall (λ row : gmap string Cell, is_Some (row !! split_col)) rows.
Proof.
  induction projects as [| p rest IH]; intros i metric stats calls Hlen Hall.
  - exists []. cbn. rewrite !app_nil_r. destruct metric; auto.
  - destruct (Hall 0 p eq_refl) as [[[[cluster fd] fdw] Hparse] Hmodels].
    cbn [take] in Hmodels. rewrite metric_in_force_one in Hmodels.
    destruct (top_models [p] 1 (metric_at metric p) data_subset) as [| mdl others] eqn:Hmdl;
      [congruence |].
    cbn [stats_loop]. unfold bind.
    rewrite (loop_body_progress i p metric stats calls cluster fd fdw mdl Hlen Hparse)
      by (rewrite Hmdl; reflexivity).
    cbn [fst snd].
    destruct (IH (S i) (metric_at metric p)
                (stats ++ [stats_row split_col p cluster fd fdw mdl])
                (calls ++ [call_for data_subset (metric_at metric p) p]))
      as (rows & Hloop & Hlenr & Hrows).
    { rewrite length_app. cbn. lia. }
    { intros j q Hq. specialize (Hall (S j) q Hq).
      change (take (S (S j)) (p :: rest)) with (p :: take (S j) rest) in Hall.
      rewrite metric_in_force_cons in Hall. exact Hall. }
    exists (stats_row split_col p cluster fd fdw mdl :: rows).
    rewrite Hloop, metric_in_force_cons, expected_calls_cons, <- !app_assoc.
    split; [reflexivity |]. split; [cbn [length]; rewrite Hlenr; reflexivity |].
    constructor; [apply stats_row_has_split_col | exact Hrows].
Qed.

(** The same for the whole function, on a list with a project in it. *)
Lemma get_project_stats_progress projects n_models cluster_to_series_map metric calls :
  projects ≠ [] →
  (∀ j p, projects !! j = Some p →
     is_Some (parse_name split_col prefix (project_name p))
     ∧ top_models [p] 1 (metric_in_force metric (take (S j) projects)) data_subset ≠ []) →
  ∃ stats,
    get_project_stats top_models projects n_models cluster_to_series_map metric
      split_col prefix data_subset calls
    = (inr stats, calls ++ expected_calls data_subset metric projects).
Proof.
  intros Hne Hall. unfold get_project_stats, bind.
  destruct (stats_loop_progress projects 0 metric [] calls eq_refl Hall)
    as (rows & -> & Hlen & Hrows).
  cbn [fst snd app]. unfold get_column.
  destruct rows as [| row rows]; [destruct projects; [congruence | discriminate Hlen] |].
  inversion Hrows as [| ? ? Hrow _]; subst.
  cbn [existsb]. rewrite (bool_decide_eq_true_2 _ Hrow). cbn [orb ret].
  eexists. reflexivity.
Qed.

(** X14: when [get_project_stats] returns, the frame has one row per project,
    in the order of the list; the row of a project holds the fields read off
    its name, the type and id of the first model the leaderboard gave for
    the value [metric] had at that project (the argument, or with
    [metric=None] the metric of the first project up to that one that has
    a metric), and under [Series] the entry of [cluster_to_series_map] for
    the value in the column [split_col]. *)
Theorem get_project_stats_rows
    projects n_models cluster_to_series_map metric calls stats calls' :
  get_project_stats top_models projects n_models cluster_to_series_map metric
    split_col prefix data_subset calls = (inr stats, calls') →
  length stats = length projects
  ∧ ∀ i p, projects !! i = Some p →
      ∃ cluster fd fdw mdl,
        parse_name split_col prefix (project_name p) = Some (cluster, fd, fdw)
        ∧ top_models [p] 1 (metric_in_force metric (take (S i) projects)) data_subset !! 0
          = Some mdl
        ∧ stats !! i
          = Some (with_series split_col cluster_to_series_map
                    (stats_row split_col p cluster fd fdw mdl)).
Proof.
  intros H. unfold get_project_stats, bind in H.
  destruct (stats_loop top_models split_col prefix data_subset 0 projects metric [] calls)
    as [[e | [metric1 stats1]] calls1] eqn:Hloop; [discriminate H |].
  apply (stats_loop_rows projects 0) in Hloop as (rows & -> & Hlen & Hrows); [| reflexivity].
  cbn [snd app] in H. unfold get_column in H.
  destruct (existsb _ rows) eqn:Hex; cbn [ret raise] in H; [| discriminate H].
  injection H as <- <-.
  rewrite map_map.
  rewrite (set_column_from_self "Series"
             (λ row, series_map cluster_to_series_map (default CNaN (row !! split_col))) rows).
  split; [rewrite length_map; exact Hlen |].
  intros i p Hp.
  destruct (Hrows i p Hp) as (cluster & fd & fdw & mdl & Hparse & Hmdl & Hrow).
  exists cluster, fd, fdw, mdl.
  split; [exact Hparse |]. split; [exact Hmdl |].
  rewrite lookup_map, Hrow. reflexivity.
Qed.

End Stats.
End StatsRows.


(** ** Reading a well-formed project name *)

Module ParseName.
Import Py Predictions Text GetArgsProofs PredictionsExtra StatsVocabulary.

Lemma split_go_skip sep x : ∀ cur b,
  split_go sep (String.length x) cur (x +:+ b) = split_go sep 0 cur b.
Proof.
  induction x as [| c x IH]; intros cur b; [reflexivity |].
  rewrite app_cons. cbn [String.length split_go]. apply IH.
Qed.

Lemma prefix_nil s : String.prefix "" s = true.
Proof. destruct s; reflexivity. Qed.

Lemma prefix_self sep b : String.prefix sep (sep +:+ b) = true.
Proof.
  induction sep as [| a sep IH]; [apply prefix_nil |].
  rewrite app_cons. cbn [String.prefix]. destruct (ascii_dec a a); [exact IH | congruence].
Qed.

(** Whether [sep] is a prefix is settled by the first [length sep] characters. *)
Lemma prefix_within sep : ∀ y z,
  String.length sep ≤ String.length y → String.prefix sep (y +:+ z) = String.prefix sep y.
Proof.
  induction sep as [| a sep IH]; intros y z Hlen; [rewrite !prefix_nil; reflexivity |].
  destruct y as [| b y]; [cbn in Hlen; lia |].
  rewrite app_cons. cbn [String.prefix]. destruct (ascii_dec a b); [| reflexivity].
  apply IH. cbn in Hlen. lia.
Qed.

Lemma occurs_suffix sep x y : occurs sep (x +:+ y) = false → occurs sep y = false.
Proof.
  induction x as [| c x IH]; intros H; [exact H |].
  rewrite app_cons in H. cbn [occurs] in H. apply orb_false_iff in H as [_ H]. auto.
Qed.

(** The split at a separator that begins the string. *)
Lemma split_go_at_separator sep b cur :
  sep ≠ "" → split_go sep 0 cur (sep +:+ b) = cur :: split_go sep 0 "" b.
Proof.
  intros Hsep. destruct sep as [| c sep]; [congruence |].
  pose proof (prefix_self (String c sep) b) as Hp.
  rewrite app_cons in *. cbn [split_go]. rewrite Hp.
  cbn [String.length Nat.sub]. rewrite Nat.sub_0_r, split_go_skip. reflexivity.
Qed.

(** The split at the first occurrence of the separator [pre + c]: nothing
    of it begins inside [a]. *)
Lemma split_go_first pre c a : ∀ cur b,
  occurs (pre +:+ String c "") (a +:+ pre) = false →
  split_go (pre +:+ String c "") 0 cur (a +:+ (pre +:+ String c "") +:+ b)
  = (cur +:+ a) :: split_go (pre +:+ String c "") 0 "" b.
Proof.
  set (sep := pre +:+ String c "").
  assert (sep ≠ "") as Hsep by (subst sep; destruct pre; discriminate).
  induction a as [| x a IH]; intros cur b H.
  - change ("" +:+ sep +:+ b) with (sep +:+ b).
    rewrite split_go_at_separator, app_empty_r by exact Hsep. reflexivity.
  - rewrite app_cons in H. cbn [occurs] in H. apply orb_false_iff in H as [Hp Hrest].
    rewrite app_cons. cbn [split_go].
    assert (String.prefix sep (String x (a +:+ sep +:+ b)) = false) as ->.
    { rewrite <- Hp. rewrite <- !app_cons. subst sep.
      rewrite (str_app_assoc pre), <- (str_app_assoc (String x a) pre).
      apply prefix_within. rewrite !str_length_app. cbn. lia. }
    rewrite (IH _ _ Hrest), str_app_assoc. reflexivity.
Qed.

Lemma py_split_first pre c a b :
  occurs (pre +:+ String c "") (a +:+ pre) = false →
  py_split (a +:+ (pre +:+ String c "") +:+ b) (pre +:+ String c "")
  = a :: py_split b (pre +:+ String c "").
Proof. intros H. unfold py_split. rewrite split_go_first by exact H. reflexivity. Qed.

(** X15: a project name of the shape
    [<prefix>_FD:<fd>_FDW:<fdw>_<split_col>-<cluster>], in which the three
    separators occur only where the shape puts them, yields its three
    fields. *)
Theorem parse_name_well_formed split_col prefix fd fdw cluster :
  let split_col_char := "_" +:+ split_col +:+ "-" in
  occurs split_col_char (prefix +:+ "_FD:" +:+ fd +:+ "_FDW:" +:+ fdw +:+ "_" +:+ split_col)
  = false →
  occurs split_col_char cluster = false →
  occurs (prefix +:+ "_FD:") (fd +:+ "_FDW:" +:+ fdw +:+ split_col_char +:+ cluster) = false →
  occurs "_FDW:" (prefix +:+ "_FD:" +:+ fd +:+ "_FDW") = false →
  occurs "_FDW:" (fdw +:+ split_col_char +:+ cluster) = false →
  parse_name split_col prefix
    (prefix +:+ "_FD:" +:+ fd +:+ "_FDW:" +:+ fdw +:+ split_col_char +:+ cluster)
  = Some (cluster, fd, fdw).
Proof.
  intros marker H1 H2 H3 H5 H6. unfold parse_name. fold marker.
  set (name := prefix +:+ "_FD:" +:+ fd +:+ "_FDW:" +:+ fdw +:+ marker +:+ cluster).
  assert (marker = ("_" +:+ split_col) +:+ String "-" "") as Hmarker
    by (subst marker; rewrite str_app_assoc; reflexivity).
  (* the cluster *)
  assert (py_split name marker
          = (prefix +:+ "_FD:" +:+ fd +:+ "_FDW:" +:+ fdw) :: [cluster]) as ->.
  { replace name with ((prefix +:+ "_FD:" +:+ fd +:+ "_FDW:" +:+ fdw) +:+ marker +:+ cluster)
      by (subst name; rewrite !str_app_assoc; reflexivity).
    rewrite Hmarker. rewrite py_split_first.
    - rewrite <- Hmarker, (py_split_absent _ _ H2). reflexivity.
    - rewrite <- Hmarker, !str_app_assoc. exact H1. }
  cbn [lookup list_lookup mbind option_bind].
  (* the forecast distance *)
  assert (py_split name (prefix +:+ "_FD:")
          = "" :: [fd +:+ "_FDW:" +:+ fdw +:+ marker +:+ cluster]) as ->.
  { replace name with ((prefix +:+ "_FD:") +:+ fd +:+ "_FDW:" +:+ fdw +:+ marker +:+ cluster)
      by (subst name; rewrite !str_app_assoc; reflexivity).
    unfold py_split. rewrite split_go_at_separator by (destruct prefix; discriminate).
    fold (py_split (fd +:+ "_FDW:" +:+ fdw +:+ marker +:+ cluster) (prefix +:+ "_FD:")).
    rewrite (py_split_absent _ _ H3). reflexivity. }
  cbn [lookup list_lookup mbind option_bind].
  assert (py_split (fd +:+ "_FDW:" +:+ fdw +:+ marker +:+ cluster) "_FDW:"
          = fd :: py_split (fdw +:+ marker +:+ cluster) "_FDW:") as ->.
  { apply (py_split_first "_FDW" ":" fd).
    apply (occurs_suffix _ (prefix +:+ "_FD:")). rewrite !str_app_assoc. exact H5. }
  cbn [lookup list_lookup mbind option_bind].
  (* the window *)
  assert (py_split name "_FDW:"
          = (prefix +:+ "_FD:" +:+ fd) :: [fdw +:+ marker +:+ cluster]) as ->.
  { replace name with ((prefix +:+ "_FD:" +:+ fd) +:+ "_FDW:" +:+ fdw +:+ marker +:+ cluster)
      by (subst name; rewrite !str_app_assoc; reflexivity).
    transitivity ((prefix +:+ "_FD:" +:+ fd) :: py_split (fdw +:+ marker +:+ cluster) "_FDW:").
    - apply (py_split_first "_FDW" ":"). rewrite !str_app_assoc. exact H5.
    - rewrite (py_split_absent _ _ H6). reflexivity. }
  cbn [lookup list_lookup mbind option_bind].
  assert (py_split (fdw +:+ marker +:+ cluster) marker = fdw :: [cluster]) as ->.
  { rewrite Hmarker. rewrite py_split_first.
    - rewrite <- Hmarker, (py_split_absent _ _ H2). reflexivity.
    - rewrite <- Hmarker.
      apply (occurs_suffix _ (prefix +:+ "_FD:" +:+ fd +:+ "_FDW:")).
      rewrite !str_app_assoc. exact H1. }
  reflexivity.
Qed.

Lemma parse_name_well_formed_witness :
  parse_name "Cluster" "TS"
    ("TS" +:+ "_FD:" +:+ "1-7" +:+ "_FDW:" +:+ "28" +:+ ("_" +:+ "Cluster" +:+ "-") +:+ "2")
  = Some ("2", "1-7", "28").
Proof.
  apply (parse_name_well_formed "Cluster" "TS" "1-7" "28" "2"); reflexivity.
Defined.

End ParseName.


(** ** The metric passed by the caller, and concrete runs *)

Module StatsMore.
Import Py Predictions Text PredictionsProofs PredictionsExtra StatsVocabulary StatsRows.

Section Stats.
Variable top_models : list Project -> nat -> option string -> string -> list Model.
Variables split_col prefix data_subset : string.

(** X16: a metric passed by the caller is the metric of every call to the
    leaderboard: the log of calls is the list of calls for that metric over
    the projects reached, all of them when a frame is returned. *)
Theorem get_project_stats_explicit_metric
    projects n_models cluster_to_series_map metric calls :
  let out := get_project_stats top_models projects n_models cluster_to_series_map (Some metric)
               split_col prefix data_subset calls in
  ∃ k, k ≤ length projects
       ∧ snd out = calls ++ map (call_for data_subset (Some metric)) (take k projects)
       ∧ ∀ stats, fst out = inr stats → k = length projects.
Proof.
  intros out. subst out.
  destruct (get_project_stats_calls top_models split_col prefix data_subset
              projects n_models cluster_to_series_map (Some metric) calls)
    as (k & Hk & Hcalls & Hdone).
  cbn zeta in Hcalls, Hdone.
  exists k. split; [exact Hk |]. split; [| exact Hdone].
  rewrite Hcalls, expected_calls_given, take_map. reflexivity.
Qed.

(** C10 (amended): with [metric=None] the test [if metric is None] is made
    at every iteration, so the metric passed for the project at index [i]
    is the metric of the first project, among those up to index [i], that
    has one ([None] as long as none has). The log of calls is the list of
    these calls over the projects reached; all the projects are reached,
    and a frame is returned, when every name can be read and no leaderboard
    is empty. When the first project has a metric, that metric is the one
    of every call, whatever the metrics of the later projects. *)
Theorem get_project_stats_metric_of_first_set
    projects n_models cluster_to_series_map calls :
  let out := get_project_stats top_models projects n_models cluster_to_series_map None
               split_col prefix data_subset calls in
  let expected :=
    imap (λ i p, mkCall [p] 1 (first_metric (take (S i) projects)) data_subset) projects in
  (∃ k, k ≤ length projects
        ∧ snd out = calls ++ take k expected
        ∧ ∀ stats, fst out = inr stats → k = length projects)
  ∧ (projects ≠ [] →
     (∀ i p, projects !! i = Some p →
        is_Some (parse_name split_col prefix (project_name p))
        ∧ top_models [p] 1 (first_metric (take (S i) projects)) data_subset ≠ []) →
     ∃ stats, out = (inr stats, calls ++ expected))
  ∧ (∀ p0 rest m, projects = p0 :: rest → project_metric p0 = Some m →
     expected = map (λ p, mkCall [p] 1 (Some m) data_subset) projects).
Proof.
  intros out expected. subst out.
  change expected with (expected_calls data_subset None projects). clear expected.
  split; [apply get_project_stats_calls |].
  split.
  - intros Hne Hall.
    apply (get_project_stats_progress top_models split_col prefix data_subset); assumption.
  - intros p0 rest m -> Hm.
    rewrite expected_calls_cons. cbn [metric_at]. rewrite Hm, expected_calls_given.
    reflexivity.
Qed.

End Stats.

(** C10 as stated fails: the first project has no metric, so [metric] is
    still [None] after the first iteration; the second iteration takes
    MAE, the metric of the second project, and the third project, whose
    own metric is RMSE, is ranked by MAE. The function returns a frame of
    three rows, and no call but the first passes the value taken from the
    first project. *)
Lemma get_project_stats_first_metric_counterexample :
  let out := get_project_stats sorted_by [cluster0; cluster2; cluster1] 5 ∅ None
               "Cluster" "TS" "allBacktests" [] in
  project_metric cluster0 = None
  ∧ project_metric cluster2 = Some "MAE"
  ∧ project_metric cluster1 = Some "RMSE"
  ∧ match fst out with inr stats => length stats = 3 | inl _ => False end
  ∧ call_metric <$> snd out = [None; Some "MAE"; Some "MAE"]
  ∧ call_projects <$> snd out = [[cluster0]; [cluster2]; [cluster1]].
Proof.
  cbv zeta. do 3 (split; [reflexivity |]).
  split; [vm_compute; reflexivity |].
  split; vm_compute; reflexivity.
Qed.

(** The amended C10 on the same three projects. *)
Lemma get_project_stats_metric_of_first_set_witness :
  ∃ stats,
    get_project_stats sorted_by [cluster0; cluster2; cluster1] 5 ∅ None
      "Cluster" "TS" "allBacktests" []
    = (inr stats,
       [mkCall [cluster0] 1 None "allBacktests";
        mkCall [cluster2] 1 (Some "MAE") "allBacktests";
        mkCall [cluster1] 1 (Some "MAE") "allBacktests"]).
Proof.
  apply (proj1 (proj2 (get_project_stats_metric_of_first_set sorted_by "Cluster" "TS"
                         "allBacktests" [cluster0; cluster2; cluster1] 5 ∅ []))).
  - discriminate.
  - intros [| [| [| i]]] p [=]; subst; split; try discriminate; vm_compute; eauto.
Defined.

Lemma py_split_join_witness :
  py_join "_FDW:" (py_split "TS_FD:1-7_FDW:28_Cluster-2" "_FDW:") = "TS_FD:1-7_FDW:28_Cluster-2".
Proof.
  apply (py_split_join "TS_FD:1-7_FDW:28_Cluster-2" "_FDW:"). discriminate.
Defined.

Lemma get_project_stats_needs_marker_witness :
  let out := get_project_stats sorted_by [unmarked; cluster1] 5 ∅ None
               "Cluster" "TS" "allBacktests" [] in
  (∃ e, fst out = inl e)
  ∧ ([unmarked; cluster1] !! 0 = Some unmarked → out = (inl IndexError, [])).
Proof.
  apply (get_project_stats_needs_marker sorted_by "Cluster" "TS" "allBacktests"
           [unmarked; cluster1] 5 ∅ None [] unmarked).
  - apply elem_of_cons. left. reflexivity.
  - reflexivity.
Defined.

Lemma get_project_stats_rows_witness :
  let out := get_project_stats sorted_by [cluster0; cluster2] 5 {[ "0" := ["s1"; "s2"] ]} None
               "Cluster" "TS" "allBacktests" [] in
  let stats := match fst out with inr stats => stats | inl _ => [] end in
  length stats = 2
  ∧ ∀ i p, [cluster0; cluster2] !! i = Some p →
      ∃ cluster fd fdw mdl,
        parse_name "Cluster" "TS" (project_name p) = Some (cluster, fd, fdw)
        ∧ sorted_by [p] 1 (metric_in_force None (take (S i) [cluster0; cluster2]))
            "allBacktests" !! 0 = Some mdl
        ∧ stats !! i
          = Some (with_series "Cluster" {[ "0" := ["s1"; "s2"] ]}
                    (stats_row "Cluster" p cluster fd fdw mdl)).
Proof.
  intros out stats.
  apply (get_project_stats_rows sorted_by "Cluster" "TS" "allBacktests"
           [cluster0; cluster2] 5 {[ "0" := ["s1"; "s2"] ]} None [] stats (snd out)).
  vm_compute. reflexivity.
Defined.

(** The rows of that run: the first project has no metric and is ranked
    with [metric=None]; the second is ranked by its own metric. *)
Example first_row_fields :
  parse_name "Cluster" "TS" (project_name cluster0) = Some ("0", "1-7", "28")
  ∧ with_series "Cluster" {[ "0" := ["s1"; "s2"] ]}
      (stats_row "Cluster" cluster0 "0" "1-7" "28"
         (mkModel "best by the metric of the project" "m0"))
    !! "Series" = Some (CSeries ["s1"; "s2"])
  ∧ (λ row : gmap string Cell, row !! "Model_Type")
    <$> match fst (get_project_stats sorted_by [cluster0; cluster2] 5 ∅ None
                     "Cluster" "TS" "allBacktests" []) with
        | inr stats => stats
        | inl _ => []
        end
    = [Some (CStr "best by the metric of the project"); Some (CStr "best by MAE")].
Proof. vm_compute. auto. Qed.

End StatsMore.


(** ** Properties of [deploy_models] *)

Module DeployProofs.
Import Deploy.

Section Client.
Variable A : Api.

Lemma deploy_one_counts server_id st item :
  let st' := deploy_one A server_id st item in
  length (snd st') = length (snd st) + 1
  ∧ length (fst st) ≤ length (fst st') ≤ length (fst st) + 1.
Proof.
  destruct st as [deployments out], item as [[m l] d]. cbn [deploy_one fst snd].
  destruct (create_deployment A deployments (lm_id m) l d server_id) as [dep |];
    [destruct (project_name_of A (lm_project_id m)) |].
  all: cbn [fst snd]; rewrite ?length_app; cbn [length]; lia.
Qed.

Lemma deploy_loop_counts server_id items : ∀ st,
  let st' := fold_left (deploy_one A server_id) items st in
  length (snd st') = length (snd st) + length items
  ∧ length (fst st) ≤ length (fst st') ≤ length (fst st) + length items.
Proof.
  induction items as [| item items IH]; intros st; cbn [fold_left length].
  - cbn zeta. lia.
  - specialize (IH (deploy_one A server_id st item)).
    pose proof (deploy_one_counts server_id st item) as Hone.
    cbn zeta in *. lia.
Qed.

Lemma project_names_length models names :
  project_names A models = Some names → length names = length models.
Proof. unfold project_names. intros H. symmetry. eapply length_mapM, H. Qed.

(** X17: with a [pred_server] argument, and lists of labels and of
    descriptions that pass the assertions on their lengths (or are not
    given), [deploy_models] raises [NameError] from the [isinstance] check
    on [pred_server], before anything is deployed or printed. *)
Theorem deploy_models_pred_server_raises models labels descriptions server :
  fits models labels = true →
  fits models descriptions = true →
  deploy_models A models labels descriptions (Some server) = (inl NameError, []).
Proof.
  intros Hl Hd. unfold deploy_models, fits in *.
  destruct labels, descriptions; rewrite ?Hl, ?Hd; reflexivity.
Qed.

(** X18: when [deploy_models] returns, it printed exactly one line per model,
    and it made at most one deployment per model; when it raises, it printed
    nothing. *)
Theorem deploy_models_one_line_per_model models labels descriptions pred_server :
  let out := deploy_models A models labels descriptions pred_server in
  match fst out with
  | inr deployments =>
      length (snd out) = length models ∧ length deployments ≤ length models
  | inl _ => snd out = []
  end.
Proof.
  intros out. subst out. unfold deploy_models.
  destruct (match labels with Some ls => negb (length models =? length ls) | None => false end)
    eqn:Hl; [reflexivity |].
  destruct (match descriptions with
            | Some ds => negb (length models =? length ds) | None => false end)
    eqn:Hd; [reflexivity |].
  destruct pred_server; [reflexivity |].
  destruct (match labels with Some ls => Some ls | None => project_names A models end)
    as [ls |] eqn:Hls; [| reflexivity].
  destruct (match descriptions with
            | Some ds => Some ds
            | None => option_map _ (project_names A models) end)
    as [ds |] eqn:Hds; [| reflexivity].
  destruct (prediction_servers A) as [[| server_id servers] |]; try reflexivity.
  assert (length ls = length models) as Hlen1.
  { destruct labels as [ls' |].
    - injection Hls as ->. apply negb_false_iff, Nat.eqb_eq in Hl. lia.
    - apply project_names_length, Hls. }
  assert (length ds = length models) as Hlen2.
  { destruct descriptions as [ds' |].
    - injection Hds as ->. apply negb_false_iff, Nat.eqb_eq in Hd. lia.
    - destruct (project_names A models) as [names |] eqn:Hn; [| discriminate].
      injection Hds as <-. rewrite length_map. apply project_names_length, Hn. }
  pose proof (deploy_loop_counts server_id (zip (zip models ls) ds) ([], [])) as Hloop.
  cbn zeta in Hloop.
  destruct (fold_left _ _ _) as [deployments out]. cbn [fst snd length] in *.
  rewrite !length_zip_with in Hloop. lia.
Qed.

(** X19: a deployment that was created stays in the result even when the
    line printed for it is the failure line: the project lookup inside the
    message is in the same [try] block, after the [append]. *)
Theorem deploy_models_failure_line_after_append m label description server servers dep :
  prediction_servers A = Some (server :: servers) →
  create_deployment A [] (lm_id m) label description server = Some dep →
  project_name_of A (lm_project_id m) = None →
  deploy_models A [m] (Some [label]) (Some [description]) None
  = (inr [dep], [failure_line m]).
Proof.
  intros Hservers Hcreate Hproject. unfold deploy_models. cbn [length Nat.eqb negb].
  rewrite Hservers. cbn [zip zip_with fold_left deploy_one]. rewrite Hcreate, Hproject.
  reflexivity.
Qed.

(** X20: a list of labels or of descriptions whose length differs from the
    number of models fails the assertion, before any call to the client. *)
Theorem deploy_models_length_mismatch models labels descriptions pred_server :
  (∃ ls, labels = Some ls ∧ length ls ≠ length models)
  ∨ (∃ ds, descriptions = Some ds ∧ length ds ≠ length models) →
  deploy_models A models labels descriptions pred_server = (inl AssertionError, []).
Proof.
  intros H. unfold deploy_models.
  destruct H as [(ls & -> & Hne) | (ds & -> & Hne)].
  - apply not_eq_sym, Nat.eqb_neq in Hne. rewrite Hne. reflexivity.
  - destruct (match labels with Some ls => _ | None => false end); [reflexivity |].
    apply not_eq_sym, Nat.eqb_neq in Hne. rewrite Hne. reflexivity.
Qed.

End Client.

(** X17 on a client where everything works: the server argument alone
    makes the call fail. *)
Lemma deploy_models_pred_server_raises_witness :
  fits two_models (Some ["first"; "second"]) = true
  ∧ fits two_models None = true
  ∧ deploy_models obliging two_models (Some ["first"; "second"]) None (Some "server-1")
    = (inl NameError, []).
Proof.
  split; [reflexivity |]. split; [reflexivity |].
  apply (deploy_models_pred_server_raises obliging two_models (Some ["first"; "second"]) None
           "server-1"); reflexivity.
Defined.

Lemma deploy_models_failure_line_after_append_witness :
  deploy_models forgetful [mkLearningModel "m1" "p1" "Elastic Net"]
    (Some ["first"]) (Some ["the first one"]) None
  = (inr ["deployment of m1"], [failure_line (mkLearningModel "m1" "p1" "Elastic Net")]).
Proof.
  apply (deploy_models_failure_line_after_append forgetful
           (mkLearningModel "m1" "p1" "Elastic Net") "first" "the first one" "server-1" []);
    reflexivity.
Defined.

Lemma deploy_models_length_mismatch_witness :
  deploy_models obliging two_models (Some ["only one"]) None None = (inl AssertionError, []).
Proof.
  apply (deploy_models_length_mismatch obliging two_models (Some ["only one"]) None None).
  left. exists ["only one"]. split; [reflexivity | cbn; lia].
Defined.

(** With nothing but the models, on a client where everything works. *)
Example deploy_two_models :
  deploy_models obliging two_models None None None
  = (inr ["deployment of m1"; "deployment of m2"],
     ["Deployment of Elastic Net into project p1 successful!";
      "Deployment of XGBoost into project p2 successful!"]).
Proof. vm_compute. reflexivity. Qed.

End DeployProofs.
